(** * Knowledge-Table client: [main/main.py]

    A shallow embedding of the company-classification script and the
    properties its specification states about it.

    Python values are modelled as the script uses them:
    - a [str] is a list of Unicode code points ([N]);
    - the values decoded from a JSON body are the inductive [json]
      (JSON numbers with a fraction or an exponent, which Python reads as
      floats, are outside the embedding);
    - the dictionaries the script uses as structs (columns, rows, chunks,
      cells) are records; [company_data], which is assigned by key and
      then serialised, is an insertion-ordered dictionary;
    - exceptions are an error monad over the trace of observable events
      (requests, [print] calls, the file written). *)

From Stdlib Require Import Ascii String.
From Stdlib Require Import DecimalString DecimalNat DecimalPos DecimalZ DecimalFacts.
From Stdlib Require Import NArith ZArith Bool Lia Arith List.
Import ListNotations.

Set Implicit Arguments.
Set Warnings "-register-all".

(** ** Strings *)

Module Str.

(** A Python [str]: a sequence of code points. *)
Definition char := N.
Definition str := list char.

(** A literal of the source, which are all ASCII. *)
Definition lit (s : string) : str :=
  map N_of_ascii (list_ascii_of_string s).

(** [a == b] on two [str]. *)
Fixpoint eqb (a b : str) : bool :=
  match a, b with
  | [], [] => true
  | x :: a', y :: b' => (x =? y)%N && eqb a' b'
  | _, _ => false
  end.

(** [str(n)] for a non-negative [int], as an f-string renders it. *)
Definition of_nat (n : nat) : str :=
  lit (NilEmpty.string_of_uint (Nat.to_uint n)).

(** [ch.isspace()], the characters [str.strip()] removes: CPython's
    [_PyUnicode_IsWhitespace]. *)
Definition isspace (c : char) : bool :=
  ((9 <=? c) && (c <=? 13)
   || (28 <=? c) && (c <=? 32)
   || (c =? 133) || (c =? 160) || (c =? 5760)
   || (8192 <=? c) && (c <=? 8202)
   || (c =? 8232) || (c =? 8233) || (c =? 8239) || (c =? 8287)
   || (c =? 12288))%N.

Fixpoint lstrip (s : str) : str :=
  match s with
  | c :: t => if isspace c then lstrip t else s
  | [] => []
  end.

Definition rstrip (s : str) : str := rev (lstrip (rev s)).

(** [s.strip()] *)
Definition strip (s : str) : str := rstrip (lstrip s).

Definition newline : char := 10%N.

(** [s.split('\n')]: never empty, [''.split('\n') == ['']]. *)
Fixpoint split_nl (s : str) : list str :=
  match s with
  | [] => [[]]
  | c :: t =>
      if (c =? newline)%N then [] :: split_nl t
      else match split_nl t with
           | l :: ls => (c :: l) :: ls
           | [] => [[c]]
           end
  end.

(** [sep.join(parts)] *)
Fixpoint join (sep : str) (parts : list str) : str :=
  match parts with
  | [] => []
  | [p] => p
  | p :: ps => p ++ sep ++ join sep ps
  end.

(** Truthiness of a [str]. *)
Definition nonempty (s : str) : bool :=
  match s with [] => false | _ => true end.

(** [s.startswith(p)] *)
Fixpoint startswith (p s : str) : bool :=
  match p, s with
  | [], _ => true
  | a :: p', b :: s' => (a =? b)%N && startswith p' s'
  | _ :: _, [] => false
  end.

(** Number of positions of [s] at which [p] occurs. *)
Fixpoint occurrences (p s : str) : nat :=
  match s with
  | [] => if startswith p [] then 1 else 0
  | _ :: t => (if startswith p s then 1 else 0) + occurrences p t
  end.

End Str.

Import Str.

(** ** The data of the script *)

(** A formatting rule of a column. *)
Record rule := mk_rule {
  rule_id : str;
  rule_type : str;
  rule_value : str
}.

(** A column descriptor, the dictionaries of [create_table_columns]. *)
Record column := mk_column {
  col_id : str;
  col_hidden : bool;
  col_entityType : str;
  col_type : str;
  col_generate : bool;
  col_query : str;
  col_rules : list rule
}.

(** A value decoded from JSON. *)
Inductive json :=
| JNull
| JBool (b : bool)
| JInt (z : Z)
| JStr (s : str)
| JList (l : list json)
| JDict (d : list (str * json)).

(** A chunk of the document: [{'content': ...}]. *)
Record chunk := mk_chunk { content : str }.

(** A row of the table. [cells] is the mapping the service would fill. *)
Record row := mk_row {
  id : str;
  sourceData : str;
  hidden : bool;
  cells : list (str * json)
}.

(** A cell of the generate-cells response. *)
Record cell := mk_cell {
  rowId : str;
  columnId : str;
  answer : json
}.

(** ** Row Builder: the loops of [create_table_rows] *)

(** [f"row_{i}_{n}"] *)
Definition row_id (i n : nat) : str :=
  lit "row_" ++ of_nat i ++ lit "_" ++ of_nat n.

(** The inner loop: [for line in lines: if line.strip(): rows.append(...)]. *)
Fixpoint lines_loop (i : nat) (lines : list str) (rows : list row) : list row :=
  match lines with
  | [] => rows
  | line :: rest =>
      lines_loop i rest
        (if nonempty (strip line)
         then rows ++ [mk_row (row_id i (length rows)) (strip line) false []]
         else rows)
  end.

(** The outer loop: [for i, chunk in enumerate(chunks)], from index [i]. *)
Fixpoint chunks_loop (i : nat) (chunks : list chunk) (rows : list row) : list row :=
  match chunks with
  | [] => rows
  | ch :: rest =>
      chunks_loop (S i) rest (lines_loop i (split_nl (strip (content ch))) rows)
  end.

(** The rows [create_table_rows] builds from the chunks of the response:
    [rows = []] and the two loops. *)
Definition rows_from_chunks (chunks : list chunk) : list row :=
  chunks_loop 0 chunks [].

(** A line is blank when it holds only whitespace. *)
Definition blank (line : str) : bool := forallb isspace line.

(** The number of non-blank lines of a text, the lines being separated by
    the newline character. *)
Definition nonblank_lines (text : str) : nat :=
  length (filter (fun l => negb (blank l)) (split_nl text)).

(** The trimmed non-blank lines of a text, in order. *)
Definition names (text : str) : list str :=
  filter nonempty (map strip (split_nl text)).

(** ** Column Builder *)

Definition TECH_AREAS : list str := map lit [
  "AI and ML"; "Application Infrastructure and Software"; "Augmented and Virtual Reality";
  "Blockchain"; "Cloud Computing and Virtualization"; "Computer Vision"; "Cryptology";
  "Cybersecurity"; "Data Science"; "Digital Forensics"; "Enterprise Business Technologies";
  "Hardware, Semiconductors and Embedded"; "Human Computer Interaction";
  "Identity Management and Authentication"; "Internet of Things"; "Location and Presence";
  "Material Science"; "Mobility and End Points"; "Natural Language Processing";
  "Next Generation Computing"; "Operating Systems"; "Quantum Technology";
  "Robotics and Automation"; "Software Defined Infrastructure"; "Unmanned Aerial Vehicles";
  "Wireless and Networking Technologies"; "5G and 6G"; "API and development";
  "Mobile development"; "Website development"
]%string.

(** The f-string of the third column's query. *)
Definition tech_query : str :=
  lit "Is this company related to technology, specifically in any of these areas: "
  ++ join (lit ", ") TECH_AREAS ++ lit "?".

Definition create_table_columns : list column := [
  mk_column (lit "is_indian") false (lit "Company") (lit "boolean") true
    (lit "Is this company based in India or of Indian origin?")
    [mk_rule (lit "rule1") (lit "format") (lit "Y/N")];
  mk_column (lit "is_startup") false (lit "Company") (lit "boolean") true
    (lit "Is this company a startup?")
    [mk_rule (lit "rule2") (lit "format") (lit "Y/N")];
  mk_column (lit "is_tech") false (lit "Company") (lit "boolean") true
    tech_query
    [mk_rule (lit "rule3") (lit "format") (lit "Y/N")]
].

(** ** Insertion-ordered dictionaries *)

Module Dict.

(** A Python [dict] with [str] keys: the items in insertion order. *)
Definition dict (V : Type) := list (str * V).

(** [d[k] = v]: an existing key keeps its place. *)
Fixpoint set V (k : str) (v : V) (d : dict V) : dict V :=
  match d with
  | [] => [(k, v)]
  | (k', v') :: t =>
      if Str.eqb k' k then (k', v) :: t else (k', v') :: set k v t
  end.

(** [d.get(k)] *)
Fixpoint get V (k : str) (d : dict V) : option V :=
  match d with
  | [] => None
  | (k', v') :: t => if Str.eqb k' k then Some v' else get k t
  end.

Definition keys V (d : dict V) : list str := map fst d.

End Dict.

(** ** Aggregation: step 5 of [process_pdf_and_classify_companies] *)

Definition NA : json := JStr (lit "N/A").

(** The dictionary literal [company_data] starts from. *)
Definition company_data_init (r : row) : Dict.dict json :=
  [ (lit "Company", JStr (sourceData r));
    (lit "Is Indian", NA);
    (lit "Is Startup", NA);
    (lit "Is Tech", NA) ].

(** The body of [for cell in cells]. *)
Definition cell_step (r : row) (c : cell) (company_data : Dict.dict json)
  : Dict.dict json :=
  if Str.eqb (rowId c) (id r) then
    if Str.eqb (columnId c) (lit "is_indian") then
      Dict.set (lit "Is Indian") (answer c) company_data
    else if Str.eqb (columnId c) (lit "is_startup") then
      Dict.set (lit "Is Startup") (answer c) company_data
    else if Str.eqb (columnId c) (lit "is_tech") then
      Dict.set (lit "Is Tech") (answer c) company_data
    else company_data
  else company_data.

Fixpoint cells_loop (r : row) (cells : list cell) (company_data : Dict.dict json)
  : Dict.dict json :=
  match cells with
  | [] => company_data
  | c :: rest => cells_loop r rest (cell_step r c company_data)
  end.

(** [for row in rows: ...; results.append(company_data)] *)
Fixpoint rows_loop (rows : list row) (cells : list cell)
  (results : list (Dict.dict json)) : list (Dict.dict json) :=
  match rows with
  | [] => results
  | r :: rest =>
      rows_loop rest cells (results ++ [cells_loop r cells (company_data_init r)])
  end.

Definition aggregate (rows : list row) (cells : list cell) : list (Dict.dict json) :=
  rows_loop rows cells [].

(** The cells of the response that belong to row [r] and column [col]. *)
Definition matching (r : row) (col : str) (cells : list cell) : list cell :=
  filter (fun c => Str.eqb (rowId c) (id r) && Str.eqb (columnId c) col) cells.

(** The three column identifiers the aggregation knows. *)
Definition known_column (col : str) : bool :=
  Str.eqb col (lit "is_indian") || Str.eqb col (lit "is_startup")
  || Str.eqb col (lit "is_tech").

(** ** The [json] module: [json.dumps] *)

Module Json.

(** [str(z)] for an [int]. *)
Definition of_Z (z : Z) : str :=
  lit (NilZero.string_of_int (Z.to_int z)).

(** One lower-case hexadecimal digit. *)
Definition hexdigit (n : N) : char :=
  (if n <? 10 then 48 + n else 87 + n)%N.

(** ['{0:04x}'.format(n)] for [n < 0x10000]. *)
Definition hex4 (n : N) : str :=
  [ hexdigit (n / 4096 mod 16); hexdigit (n / 256 mod 16);
    hexdigit (n / 16 mod 16); hexdigit (n mod 16) ]%N.

Definition backslash : char := 92%N.
Definition quote : char := 34%N.

Definition u_escape (n : N) : str := backslash :: 117%N :: hex4 n.

(** The replacement of one character by [py_encode_basestring_ascii]:
    [ESCAPE_DCT] first, the characters from space to tilde unchanged,
    the others as [\uXXXX], through a surrogate pair from 0x10000 on. *)
Definition escape_char (c : char) : str :=
  (if c =? quote then [backslash; quote]
   else if c =? backslash then [backslash; backslash]
   else if c =? 8 then [backslash; 98]
   else if c =? 12 then [backslash; 102]
   else if c =? 10 then [backslash; 110]
   else if c =? 13 then [backslash; 114]
   else if c =? 9 then [backslash; 116]
   else if (32 <=? c) && (c <=? 126) then [c]
   else if c <? 65536 then u_escape c
   else
     let n := c - 65536 in
     u_escape (N.lor 55296 (N.land (N.shiftr n 10) 1023))
     ++ u_escape (N.lor 56320 (N.land n 1023)))%N.

Definition py_encode_basestring_ascii (s : str) : str :=
  quote :: flat_map escape_char s ++ [quote].

(** ['\n' + ' ' * (indent * level)], nothing without [indent]. *)
Definition newline_indent (indent : option nat) (level : nat) : str :=
  match indent with
  | Some k => newline :: repeat 32%N (k * level)
  | None => []
  end.

(** [(', ', ': ')] without [indent], [(',', ': ')] with it. *)
Definition item_separator (indent : option nat) : str :=
  match indent with Some _ => lit "," | None => lit ", " end.

Definition key_separator : str := lit ": ".

(** [_iterencode], the chunks concatenated: [level] is
    [_current_indent_level]. *)
Fixpoint encode (indent : option nat) (level : nat) (v : json) : str :=
  match v with
  | JNull => lit "null"
  | JBool true => lit "true"
  | JBool false => lit "false"
  | JInt z => of_Z z
  | JStr s => py_encode_basestring_ascii s
  | JList [] => lit "[]"
  | JList l =>
      lit "[" ++ newline_indent indent (S level)
      ++ join (item_separator indent ++ newline_indent indent (S level))
           (map (encode indent (S level)) l)
      ++ newline_indent indent level ++ lit "]"
  | JDict [] => lit "{}"
  | JDict d =>
      lit "{" ++ newline_indent indent (S level)
      ++ join (item_separator indent ++ newline_indent indent (S level))
           (map (fun kv =>
                   py_encode_basestring_ascii (fst kv) ++ key_separator
                   ++ encode indent (S level) (snd kv)) d)
      ++ newline_indent indent level ++ lit "}"
  end.

(** [json.dumps(v, indent=indent)] *)
Definition dumps (indent : option nat) (v : json) : str :=
  encode indent 0 v.

(** *** [json.loads]: the scanner of [_json.c]

    [None] stands for the [JSONDecodeError] the decoder raises, and for
    the numbers it would read as floats. *)

(** The whitespace between tokens: space, tab, newline, carriage return. *)
Definition is_whitespace (c : char) : bool :=
  ((c =? 32) || (c =? 9) || (c =? 10) || (c =? 13))%N.

Fixpoint skip_whitespace (s : str) : str :=
  match s with
  | c :: t => if is_whitespace c then skip_whitespace t else s
  | [] => []
  end.

(** The value of a hexadecimal digit of either case. *)
Definition hexval (c : char) : option N :=
  (if (48 <=? c) && (c <=? 57) then Some (c - 48)
   else if (97 <=? c) && (c <=? 102) then Some (c - 87)
   else if (65 <=? c) && (c <=? 70) then Some (c - 55)
   else None)%N.

(** Four hexadecimal digits: their value and what follows them. *)
Definition decode_hex4 (s : str) : option (N * str) :=
  match s with
  | a :: b :: c :: d :: rest =>
      match hexval a, hexval b, hexval c, hexval d with
      | Some x, Some y, Some z, Some u =>
          Some ((((x * 16 + y) * 16 + z) * 16 + u)%N, rest)
      | _, _, _, _ => None
      end
  | _ => None
  end.

Definition is_high_surrogate (c : N) : bool :=
  ((55296 <=? c) && (c <=? 56319))%N.

Definition is_low_surrogate (c : N) : bool :=
  ((56320 <=? c) && (c <=? 57343))%N.

(** [Py_UNICODE_JOIN_SURROGATES] *)
Definition join_surrogates (c c2 : N) : N :=
  (N.lor (N.shiftl (N.land c 1023) 10) (N.land c2 1023) + 65536)%N.

(** The character an escape stands for, [s] being what follows the
    backslash. After the four digits of [\uXXXX] the string must go on; a
    high surrogate takes a following [\uXXXX] with it when that one is a
    low surrogate. *)
Definition unescape (s : str) : option (char * str) :=
  match s with
  | [] => None
  | c :: t =>
      if (c =? 117)%N then
        match decode_hex4 t with
        | None => None
        | Some (c1, rest) =>
            match rest with
            | [] => None
            | a :: rest1 =>
                if is_high_surrogate c1 && (6 <? length rest)
                   && (a =? backslash)%N
                then
                  match rest1 with
                  | b :: rest2 =>
                      if (b =? 117)%N then
                        match decode_hex4 rest2 with
                        | None => None
                        | Some (c2, rest3) =>
                            if is_low_surrogate c2
                            then Some (join_surrogates c1 c2, rest3)
                            else Some (c1, rest)
                        end
                      else Some (c1, rest)
                  | [] => Some (c1, rest)
                  end
                else Some (c1, rest)
            end
        end
      else if (c =? quote)%N then Some (quote, t)
      else if (c =? backslash)%N then Some (backslash, t)
      else if (c =? 47)%N then Some (47%N, t)
      else if (c =? 98)%N then Some (8%N, t)
      else if (c =? 102)%N then Some (12%N, t)
      else if (c =? 110)%N then Some (10%N, t)
      else if (c =? 114)%N then Some (13%N, t)
      else if (c =? 116)%N then Some (9%N, t)
      else None
  end.

(** [scanstring], strict: [s] is what follows the opening quote; the
    result is the string and what follows its closing quote. *)
Fixpoint scanstring (fuel : nat) (s : str) : option (str * str) :=
  match fuel with
  | O => None
  | S fuel' =>
      match s with
      | [] => None
      | c :: t =>
          if (c =? quote)%N then Some ([], t)
          else if (c =? backslash)%N then
            match unescape t with
            | None => None
            | Some (ch, rest) =>
                match scanstring fuel' rest with
                | None => None
                | Some (r, rest') => Some (ch :: r, rest')
                end
            end
          else if (c <=? 31)%N then None
          else
            match scanstring fuel' t with
            | None => None
            | Some (r, rest') => Some (c :: r, rest')
            end
      end
  end.

Definition is_digit (c : char) : bool := ((48 <=? c) && (c <=? 57))%N.

(** The longest run of digits at the head of [s], and the rest. *)
Fixpoint span_digits (s : str) : str * str :=
  match s with
  | c :: t =>
      if is_digit c then let (ds, rest) := span_digits t in (c :: ds, rest)
      else ([], s)
  | [] => ([], [])
  end.

Definition value_step (acc d : N) : N := (10 * acc + (d - 48))%N.

(** The number a run of digits denotes. *)
Definition digits_value (ds : str) : N := fold_left value_step ds 0%N.

(** What follows the integer part makes the number a float: a fraction,
    or an exponent with at least one digit. *)
Definition float_tail (s : str) : bool :=
  match s with
  | c :: t =>
      if (c =? 46)%N then
        match t with d :: _ => is_digit d | [] => false end
      else if (c =? 101)%N || (c =? 69)%N then
        match t with
        | d :: t' =>
            if (d =? 45)%N || (d =? 43)%N then
              match t' with d' :: _ => is_digit d' | [] => false end
            else is_digit d
        | [] => false
        end
      else false
  | [] => false
  end.

(** [_match_number_unicode] *)
Definition match_number (s : str) : option (json * str) :=
  let (negative, s1) :=
    match s with
    | c :: t => if (c =? 45)%N then (true, t) else (false, s)
    | [] => (false, s)
    end in
  match s1 with
  | c :: t =>
      let (ds, rest) :=
        if (49 <=? c)%N && (c <=? 57)%N then
          let (ds, rest) := span_digits t in (c :: ds, rest)
        else ([c], t) in
      if is_digit c then
        if float_tail rest then None
        else
          let n := Z.of_N (digits_value ds) in
          Some (JInt (if negative then - n else n)%Z, rest)
      else None
  | [] => None
  end.

(** [scan_once], with the loops of [_parse_array] and [_parse_object].
    [fuel] bounds the calls; an object is built with [PyDict_SetItem], so
    a repeated key keeps its first place and takes the last value. *)
Fixpoint scan_once (fuel : nat) (s : str) : option (json * str) :=
  match fuel with
  | O => None
  | S fuel' =>
      match s with
      | [] => None
      | c :: t =>
          if (c =? quote)%N then
            match scanstring (length t) t with
            | Some (x, rest) => Some (JStr x, rest)
            | None => None
            end
          else if (c =? 123)%N then
            match skip_whitespace t with
            | c' :: rest =>
                if (c' =? 125)%N then Some (JDict [], rest)
                else object_loop fuel' (c' :: rest) []
            | [] => None
            end
          else if (c =? 91)%N then
            match skip_whitespace t with
            | c' :: rest =>
                if (c' =? 93)%N then Some (JList [], rest)
                else array_loop fuel' (c' :: rest) []
            | [] => None
            end
          else if (c =? 110)%N && startswith (lit "ull") t then
            Some (JNull, skipn 3 t)
          else if (c =? 116)%N && startswith (lit "rue") t then
            Some (JBool true, skipn 3 t)
          else if (c =? 102)%N && startswith (lit "alse") t then
            Some (JBool false, skipn 4 t)
          else match_number s
      end
  end
with array_loop (fuel : nat) (s : str) (acc : list json)
  : option (json * str) :=
  match fuel with
  | O => None
  | S fuel' =>
      match scan_once fuel' s with
      | None => None
      | Some (v, rest) =>
          match skip_whitespace rest with
          | c :: rest' =>
              if (c =? 93)%N then Some (JList (acc ++ [v]), rest')
              else if (c =? 44)%N then
                array_loop fuel' (skip_whitespace rest') (acc ++ [v])
              else None
          | [] => None
          end
      end
  end
with object_loop (fuel : nat) (s : str) (acc : Dict.dict json)
  : option (json * str) :=
  match fuel with
  | O => None
  | S fuel' =>
      match s with
      | [] => None
      | c :: t =>
          if (c =? quote)%N then
            match scanstring (length t) t with
            | None => None
            | Some (key, rest) =>
                match skip_whitespace rest with
                | c2 :: rest2 =>
                    if (c2 =? 58)%N then
                      match scan_once fuel' (skip_whitespace rest2) with
                      | None => None
                      | Some (v, rest3) =>
                          match skip_whitespace rest3 with
                          | c4 :: rest4 =>
                              if (c4 =? 125)%N then
                                Some (JDict (Dict.set key v acc), rest4)
                              else if (c4 =? 44)%N then
                                object_loop fuel' (skip_whitespace rest4)
                                  (Dict.set key v acc)
                              else None
                          | [] => None
                          end
                      end
                    else None
                | [] => None
                end
            end
          else None
      end
  end.

(** [json.loads(s)]: one value, with whitespace around it and nothing
    else. The length of the text is fuel enough. *)
Definition loads (s : str) : option json :=
  match scan_once (S (length s)) (skip_whitespace s) with
  | Some (v, rest) =>
      match skip_whitespace rest with
      | [] => Some v
      | _ :: _ => None
      end
  | None => None
  end.

(** *** Descriptions used in the round-trip proofs *)

(** A [str] as the decoder builds them: code points below 0x110000, and
    no high surrogate immediately before a low surrogate, since the
    decoder joins an escaped pair into one character. *)
Fixpoint valid_str (s : str) : bool :=
  match s with
  | [] => true
  | c :: t =>
      (c <? 1114112)%N
      && negb (is_high_surrogate c
               && match t with d :: _ => is_low_surrogate d | [] => false end)
      && valid_str t
  end.

(** A decoded value all of whose strings are [valid_str]. *)
Fixpoint valid_json (v : json) : bool :=
  match v with
  | JNull | JBool _ | JInt _ => true
  | JStr s => valid_str s
  | JList l => forallb valid_json l
  | JDict d => forallb (fun kv => valid_str (fst kv) && valid_json (snd kv)) d
  end.

(** The values that are neither lists nor dictionaries. *)
Definition scalar (v : json) : bool :=
  match v with
  | JNull | JBool _ | JInt _ => true
  | JStr s => valid_str s
  | JList _ | JDict _ => false
  end.

(** After a lone [\uXXXX], the text does not go on with the escape of a
    low surrogate. *)
Definition follow_ok (X : str) : Prop :=
  forall a b rest2, X = a :: b :: rest2 -> a = backslash -> b = 117%N ->
    exists c2 rest3,
      decode_hex4 rest2 = Some (c2, rest3) /\ is_low_surrogate c2 = false.

(** What may follow an integer without changing how it is read. *)
Definition number_end (rest : str) : bool :=
  negb (match rest with c :: _ => is_digit c | [] => false end)
  && negb (float_tail rest).

(** One ["key": value] of an indented dictionary. *)
Definition item (k level : nat) (kv : str * json) : str :=
  py_encode_basestring_ascii (fst kv) ++ key_separator
  ++ encode (Some k) level (snd kv).

Definition set_item (acc : Dict.dict json) (kv : str * json) : Dict.dict json :=
  Dict.set (fst kv) (snd kv) acc.

Definition good_item (kv : str * json) : Prop :=
  valid_str (fst kv) = true /\ scalar (snd kv) = true.

(** A dictionary of at most [M] scalar items, not empty. *)
Definition good_dict (M : nat) (d : list (str * json)) : Prop :=
  d <> [] /\ Forall good_item d /\ length d <= M.

(** The dictionary the decoder builds from the items of [d]. *)
Definition normal (d : list (str * json)) : json :=
  JDict (fold_left set_item d []).

Definition comma_indent (k level : nat) : str :=
  lit "," ++ newline_indent (Some k) level.

End Json.

(** ** The world outside the script *)

(** An exception, as the handler sees it: the text of [str(e)]. *)
Definition exn := str.

(** A [requests] response; [resp_json] is what [response.json()] gives,
    decoded to the shape the endpoint documents, or the exception it
    raises. *)
Record response (T : Type) := mk_response {
  status_code : Z;
  text : str;
  resp_json : exn + T
}.

Arguments mk_response {T}.

(** The file system and the remote service. Every call may raise. *)
Record world := mk_world {
  basename : str -> str;
  open_rb : str -> exn + list N;
  post_document : str -> str -> list N -> str -> exn + response str;
  get_chunks : str -> exn + response (list chunk);
  post_generate_cells :
    str -> list column -> list row -> exn + response (list cell);
  open_w : str -> exn + unit
}.

(** What a run does that can be observed. *)
Inductive event :=
| Request (method url : str)
| Print (line : str)
| Write (path data : str).

(** ** Exceptions and output: the monad of the workflow *)

Definition M (A : Type) : Type := list event -> (exn + A) * list event.

Definition ret {A} (a : A) : M A := fun t => (inr a, t).

Definition bind {A B} (m : M A) (k : A -> M B) : M B :=
  fun t =>
    match m t with
    | (inr a, t') => k a t'
    | (inl e, t') => (inl e, t')
    end.

(** [raise Exception(msg)] *)
Definition raise {A} (msg : exn) : M A := fun t => (inl msg, t).

Definition emit (e : event) : M unit := fun t => (inr tt, t ++ [e]).

(** A call into the world that returns or raises. *)
Definition call {A} (r : exn + A) : M A :=
  match r with inr a => ret a | inl e => raise e end.

Notation "x <- m ;; k" := (bind m (fun x => k))
  (at level 61, m at next level, right associativity).
Notation "m ;;; k" := (bind m (fun _ => k))
  (at level 61, right associativity).

(** [print(line)] *)
Definition print (line : str) : M unit := emit (Print line).

(** [for x in l: body(x)] *)
Fixpoint for_each {A} (l : list A) (body : A -> M unit) : M unit :=
  match l with
  | [] => ret tt
  | x :: rest => body x ;;; for_each rest body
  end.

(** ** The four steps *)

Definition API_BASE_URL : str := lit "http://localhost:8000/api/v1".

Definition upload_pdf (w : world) (pdf_path : str) : M str :=
  let filename := basename w pdf_path in
  f <- call (open_rb w pdf_path) ;;
  let document_data :=
    JDict [ (lit "name", JStr filename);
            (lit "author", JStr (lit "Automated Upload"));
            (lit "tag", JStr (lit "Company Analysis")) ] in
  let url := API_BASE_URL ++ lit "/document" in
  emit (Request (lit "POST") url) ;;;
  response <- call (post_document w url filename f
                      (Json.dumps None document_data)) ;;
  if negb (status_code response =? 201)%Z then
    raise (lit "Failed to upload document: " ++ text response)
  else
    call (resp_json response).

Definition create_table_rows (w : world) (document_id : str) : M (list row) :=
  let url := API_BASE_URL ++ lit "/document/" ++ document_id ++ lit "/chunks" in
  emit (Request (lit "GET") url) ;;;
  response <- call (get_chunks w url) ;;
  if negb (status_code response =? 200)%Z then
    raise (lit "Failed to get document chunks: " ++ text response)
  else
    chunks <- call (resp_json response) ;;
    ret (rows_from_chunks chunks).

Definition generate_table_cells (w : world) (columns : list column)
  (rows : list row) : M (list cell) :=
  let url := API_BASE_URL ++ lit "/query/generate-cells" in
  emit (Request (lit "POST") url) ;;;
  response <- call (post_generate_cells w url columns rows) ;;
  if negb (status_code response =? 200)%Z then
    raise (lit "Failed to generate cells: " ++ text response)
  else
    call (resp_json response).

(** ** Reporting *)

(** [s.ljust(width)], the effect of the format spec [<width] on text. *)
Definition ljust (width : nat) (s : str) : str :=
  s ++ repeat 32%N (width - length s).

(** Sequencing of computations that may raise and do nothing else. *)
Definition and_then {A B} (r : exn + A) (k : A -> exn + B) : exn + B :=
  match r with inr a => k a | inl e => inl e end.

Notation "x <~ r ;; k" := (and_then r (fun x => k))
  (at level 61, r at next level, right associativity).

(** [format(v, '<width')]: a [str] is padded, an [int] is rendered in
    decimal and padded, a [bool] is formatted as the [int] it is; [None],
    lists and dictionaries refuse a format spec. *)
Definition format_left (width : nat) (v : json) : exn + str :=
  match v with
  | JStr s => inr (ljust width s)
  | JInt z => inr (ljust width (Json.of_Z z))
  | JBool b => inr (ljust width (lit (if b then "1" else "0")))
  | JNull => inl (lit "unsupported format string passed to NoneType.__format__")
  | JList _ => inl (lit "unsupported format string passed to list.__format__")
  | JDict _ => inl (lit "unsupported format string passed to dict.__format__")
  end.

(** [d[k]], a [KeyError] when the key is absent. *)
Definition getitem (d : Dict.dict json) (k : str) : exn + json :=
  match Dict.get k d with
  | Some v => inr v
  | None => inl (lit "'" ++ k ++ lit "'")
  end.

(** The f-string of one line of the table. *)
Definition result_line (result : Dict.dict json) : exn + str :=
  v1 <~ getitem result (lit "Company") ;;
  s1 <~ format_left 30 v1 ;;
  v2 <~ getitem result (lit "Is Indian") ;;
  s2 <~ format_left 10 v2 ;;
  v3 <~ getitem result (lit "Is Startup") ;;
  s3 <~ format_left 10 v3 ;;
  v4 <~ getitem result (lit "Is Tech") ;;
  s4 <~ format_left 10 v4 ;;
  inr (s1 ++ lit " | " ++ s2 ++ lit " | " ++ s3 ++ lit " | " ++ s4).

Definition header_line : str :=
  ljust 30 (lit "Company") ++ lit " | " ++ ljust 10 (lit "Is Indian")
  ++ lit " | " ++ ljust 10 (lit "Is Startup") ++ lit " | "
  ++ ljust 10 (lit "Is Tech").

Definition results_path : str := lit "company_classification_results.json".

Definition title_line : str := newline :: lit "Company Classification Results:".

(** ["-" * 80] *)
Definition rule_line : str := repeat 45%N 80.

Definition saved_line : str :=
  newline :: lit "Results saved to company_classification_results.json".

(** Printing the table and saving the results. *)
Definition report (w : world) (results : list (Dict.dict json)) : M unit :=
  print title_line ;;;
  print rule_line ;;;
  print header_line ;;;
  print rule_line ;;;
  for_each results
    (fun result => line <- call (result_line result) ;; print line) ;;;
  call (open_w w results_path) ;;;
  emit (Write results_path (Json.dumps (Some 2) (JList (map JDict results)))) ;;;
  print saved_line.

(** The body of the [try]. *)
Definition workflow (w : world) (pdf_path : str) : M unit :=
  document_id <- upload_pdf w pdf_path ;;
  print (lit "Document uploaded successfully with ID: " ++ document_id) ;;;
  let columns := create_table_columns in
  print (lit "Table columns created") ;;;
  rows <- create_table_rows w document_id ;;
  print (lit "Created " ++ of_nat (length rows) ++ lit " rows from document") ;;;
  cells <- generate_table_cells w columns rows ;;
  print (lit "Generated " ++ of_nat (length cells) ++ lit " cells") ;;;
  report w (aggregate rows cells).

(** [try: ... except Exception as e: print(f"Error: {str(e)}")], run from
    an empty trace: the events of the whole run. *)
Definition process_pdf_and_classify_companies (w : world) (pdf_path : str)
  : list event :=
  match workflow w pdf_path [] with
  | (inr _, t) => t
  | (inl e, t) => t ++ [Print (lit "Error: " ++ e)]
  end.

(** ** Failing requests *)

Definition document_url : str := API_BASE_URL ++ lit "/document".

Definition chunks_url (document_id : str) : str :=
  API_BASE_URL ++ lit "/document/" ++ document_id ++ lit "/chunks".

Definition generate_cells_url : str :=
  API_BASE_URL ++ lit "/query/generate-cells".

(** The upload of [pdf_path] is answered by [r]. *)
Definition uploaded (w : world) (pdf_path : str) (r : response str) : Prop :=
  exists f,
    open_rb w pdf_path = inr f /\
    post_document w document_url (basename w pdf_path) f
      (Json.dumps None
         (JDict [ (lit "name", JStr (basename w pdf_path));
                  (lit "author", JStr (lit "Automated Upload"));
                  (lit "tag", JStr (lit "Company Analysis")) ])) = inr r.

(** A request of the run is answered with an unexpected status code; the
    index is the message of the exception the script raises for it. *)
Inductive http_failure (w : world) (pdf_path : str) : exn -> Prop :=
| upload_failure r :
    uploaded w pdf_path r ->
    status_code r <> 201%Z ->
    http_failure w pdf_path (lit "Failed to upload document: " ++ text r)
| chunks_failure r document_id r' :
    uploaded w pdf_path r ->
    status_code r = 201%Z ->
    resp_json r = inr document_id ->
    get_chunks w (chunks_url document_id) = inr r' ->
    status_code r' <> 200%Z ->
    http_failure w pdf_path (lit "Failed to get document chunks: " ++ text r')
| generate_cells_failure r document_id r' chunks r'' :
    uploaded w pdf_path r ->
    status_code r = 201%Z ->
    resp_json r = inr document_id ->
    get_chunks w (chunks_url document_id) = inr r' ->
    status_code r' = 200%Z ->
    resp_json r' = inr chunks ->
    post_generate_cells w generate_cells_url create_table_columns
      (rows_from_chunks chunks) = inr r'' ->
    status_code r'' <> 200%Z ->
    http_failure w pdf_path (lit "Failed to generate cells: " ++ text r'').

Definition is_write (e : event) : bool :=
  match e with Write _ _ => true | _ => false end.

Definition is_request (e : event) : bool :=
  match e with Request _ _ => true | _ => false end.

(** ** Scenario worlds *)

(** A world whose three endpoints answer with the given responses; the
    files can be opened. *)
Definition scenario_world (up : response str) (ch : response (list chunk))
  (ce : response (list cell)) : world :=
  mk_world (fun path => path) (fun _ => inr [37; 80; 68; 70]%N)
    (fun _ _ _ _ => inr up) (fun _ => inr ch) (fun _ _ _ => inr ce)
    (fun _ => inr tt).

Definition scenario_cells : list cell :=
  [ mk_cell (lit "row_0_0") (lit "is_indian") (JStr (lit "Y"));
    mk_cell (lit "row_0_0") (lit "is_startup") (JStr (lit "N"));
    mk_cell (lit "row_0_0") (lit "is_tech") (JBool true) ].

(** ** Descriptions of a run *)

(** The lines of the table that are printed, and the exception that stops
    the printing, if any. *)
Fixpoint render (results : list (Dict.dict json)) : list str * option exn :=
  match results with
  | [] => ([], None)
  | result :: rest =>
      match result_line result with
      | inl e => ([], Some e)
      | inr line => let (lines, e) := render rest in (line :: lines, e)
      end
  end.

(** The bodies the service answers with were decoded from JSON: their
    strings are as the decoder builds them. *)
Definition json_strings (w : world) : Prop :=
  (forall url r chunks,
     get_chunks w url = inr r -> resp_json r = inr chunks ->
     Forall (fun ch => Json.valid_str (content ch) = true) chunks) /\
  (forall url columns rows r cells,
     post_generate_cells w url columns rows = inr r ->
     resp_json r = inr cells ->
     Forall (fun c => Json.valid_json (answer c) = true) cells).

(** The values a format spec accepts. *)
Definition printable (v : json) : bool :=
  match v with
  | JStr _ | JInt _ | JBool _ => true
  | JNull | JList _ | JDict _ => false
  end.

(** The four lines printed above the rows of the table. *)
Definition table_head : list event :=
  [Print title_line; Print rule_line; Print header_line; Print rule_line].

(** The requests of a run, in order, for the document identifier [id]. *)
Definition the_requests (document_id : str) : list event :=
  [ Request (lit "POST") document_url;
    Request (lit "GET") (chunks_url document_id);
    Request (lit "POST") generate_cells_url ].

(** What a run prints and requests before the table, when the three
    requests succeed. *)
Definition preamble (document_id : str) (rows : list row) (cells : list cell)
  : list event :=
  [ Request (lit "POST") document_url;
    Print (lit "Document uploaded successfully with ID: " ++ document_id);
    Print (lit "Table columns created");
    Request (lit "GET") (chunks_url document_id);
    Print (lit "Created " ++ of_nat (length rows) ++ lit " rows from document");
    Request (lit "POST") generate_cells_url;
    Print (lit "Generated " ++ of_nat (length cells) ++ lit " cells") ].

(** ** Auxiliary descriptions of the loops *)

(** The rows appended for the trimmed non-blank lines [l] of chunk [i]
    when [n] rows exist already. *)
Fixpoint number (i n : nat) (l : list str) : list row :=
  match l with
  | [] => []
  | s :: t => mk_row (row_id i n) s false [] :: number i (S n) t
  end.

(** The rows the chunks contribute, from chunk index [i] and row count [n]. *)
Fixpoint table (i n : nat) (chunks : list chunk) : list row :=
  match chunks with
  | [] => []
  | ch :: rest =>
      let new := number i n (names (content ch)) in
      new ++ table (S i) (n + length new) rest
  end.

Definition underscore : char := 95%N.

(** The part of an identifier after its last underscore. *)
Fixpoint until_underscore (s : str) : str :=
  match s with
  | [] => []
  | c :: t => if (c =? underscore)%N then [] else c :: until_underscore t
  end.

Definition id_suffix (s : str) : str := rev (until_underscore (rev s)).

(** A result dictionary with its four keys in the order of the literal. *)
Definition result_of (name : str) (a b c : json) : Dict.dict json :=
  [ (lit "Company", JStr name);
    (lit "Is Indian", a);
    (lit "Is Startup", b);
    (lit "Is Tech", c) ].

(** The answer of the last cell of the response for row [r] and column
    [col], [dflt] when there is none. *)
Definition last_answer (r : row) (col : str) (cells : list cell) (dflt : json)
  : json :=
  last (map answer (matching r col cells)) dflt.

(** The result field a column identifier is copied to. *)
Definition field_of (col : str) : option str :=
  if Str.eqb col (lit "is_indian") then Some (lit "Is Indian")
  else if Str.eqb col (lit "is_startup") then Some (lit "Is Startup")
  else if Str.eqb col (lit "is_tech") then Some (lit "Is Tech")
  else None.

(** The first and the last character of [s], if any, are not whitespace. *)
Definition trimmed (s : str) : Prop :=
  (forall c, hd_error s = Some c -> isspace c = false) /\
  (forall c, hd_error (rev s) = Some c -> isspace c = false).

(** The chunk text of the scenario: ["Acme Corp\n\nBeta Inc\n"]. *)
Definition scenario_content : str :=
  lit "Acme Corp" ++ [newline; newline] ++ lit "Beta Inc" ++ [newline].

(** The strings of a list are pairwise different. *)
Fixpoint distinct (l : list str) : bool :=
  match l with
  | [] => true
  | x :: t => negb (existsb (Str.eqb x) t) && distinct t
  end.

(** ** Descriptions of whole runs *)

(** The text a format spec pads. *)
Definition plain (v : json) : str :=
  match v with
  | JStr s => s
  | JInt z => Json.of_Z z
  | JBool b => lit (if b then "1" else "0")
  | JNull | JList _ | JDict _ => []
  end.

(** The line of the table for a result with printable answers. *)
Definition table_line (name : str) (a b c : json) : str :=
  ljust 30 name ++ lit " | " ++ ljust 10 (plain a) ++ lit " | "
  ++ ljust 10 (plain b) ++ lit " | " ++ ljust 10 (plain c).

(** The three requests of a run are answered with the expected status
    codes and with bodies that decode to [document_id], [chunks] and
    [cells]. *)
Definition served (w : world) (pdf_path document_id : str)
  (chunks : list chunk) (cells : list cell) : Prop :=
  exists r r' r'',
    uploaded w pdf_path r /\ status_code r = 201%Z /\
    resp_json r = inr document_id /\
    get_chunks w (chunks_url document_id) = inr r' /\
    status_code r' = 200%Z /\ resp_json r' = inr chunks /\
    post_generate_cells w generate_cells_url create_table_columns
      (rows_from_chunks chunks) = inr r'' /\
    status_code r'' = 200%Z /\ resp_json r'' = inr cells.


(** The scenario with its three requests answered as expected. *)
Definition scenario_ok : world :=
  scenario_world (mk_response 201%Z [] (inr (lit "doc-1")))
    (mk_response 200%Z [] (inr [mk_chunk scenario_content]))
    (mk_response 200%Z [] (inr scenario_cells)).

(** The metadata sent with the file. *)
Definition document_data (filename : str) : json :=
  JDict [ (lit "name", JStr filename);
          (lit "author", JStr (lit "Automated Upload"));
          (lit "tag", JStr (lit "Company Analysis")) ].

(** The characters of ASCII. *)
Definition ascii_only (s : str) : Prop := Forall (fun c => (c < 128)%N) s.

(** * Properties *)

(** ** Strings *)

Section StringFacts.

Lemma eqb_eq (a b : str) : Str.eqb a b = true <-> a = b.
Proof.
  revert b; induction a as [|x a IH]; intros [|y b]; simpl; split;
    try congruence; try reflexivity.
  - intros H. apply andb_true_iff in H as [H1 H2].
    apply N.eqb_eq in H1. apply IH in H2. congruence.
  - intros H. injection H as -> ->.
    rewrite N.eqb_refl. simpl. now apply IH.
Qed.

Lemma eqb_refl (a : str) : Str.eqb a a = true.
Proof. now apply eqb_eq. Qed.

Lemma eqb_neq (a b : str) : Str.eqb a b = false <-> a <> b.
Proof.
  split.
  - intros H E. apply eqb_eq in E. congruence.
  - intros H. destruct (Str.eqb a b) eqn:E; [|reflexivity].
    apply eqb_eq in E. contradiction.
Qed.

Lemma lit_inj (s t : string) : lit s = lit t -> s = t.
Proof.
  unfold lit. intros H.
  rewrite <- (string_of_list_ascii_of_string s),
          <- (string_of_list_ascii_of_string t).
  f_equal.
  revert H. generalize (list_ascii_of_string s) (list_ascii_of_string t).
  induction l as [|a l IH]; intros [|b l']; simpl; try congruence.
  intros H. injection H as H1 H2. f_equal; [|now apply IH].
  rewrite <- (ascii_N_embedding a), <- (ascii_N_embedding b). now f_equal.
Qed.

Lemma of_nat_inj (n m : nat) : of_nat n = of_nat m -> n = m.
Proof.
  unfold of_nat. intros H. apply lit_inj in H.
  assert (E : Some (Nat.to_uint n) = Some (Nat.to_uint m)).
  { now rewrite <- !NilEmpty.usu, H. }
  injection E as E.
  rewrite <- (DecimalNat.Unsigned.of_to n), <- (DecimalNat.Unsigned.of_to m).
now f_equal.
Qed.

(** A decimal rendering holds digits only. *)
Lemma string_of_uint_digits (d : Decimal.uint) :
  Forall (fun c => c <> underscore) (lit (NilEmpty.string_of_uint d)).
Proof.
  induction d; simpl; constructor; try assumption; discriminate.
Qed.

Lemma until_underscore_app (a b : str) :
  Forall (fun c => c <> underscore) a ->
  until_underscore (a ++ underscore :: b) = a.
Proof.
  induction 1 as [|c a Hc _ IH]; simpl.
  - reflexivity.
  - apply N.eqb_neq in Hc. rewrite Hc. now f_equal.
Qed.

Lemma id_suffix_row_id (i n : nat) : id_suffix (row_id i n) = of_nat n.
Proof.
  unfold id_suffix, row_id.
  rewrite !app_assoc, rev_app_distr.
  change (lit "_") with [underscore].
  rewrite (rev_app_distr _ [underscore]). simpl rev at 2. simpl app at 1.
  rewrite until_underscore_app, rev_involutive; [reflexivity|].
  apply Forall_rev, string_of_uint_digits.
Qed.

Lemma isspace_newline : isspace newline = true.
Proof. reflexivity. Qed.

Lemma newline_isspace (c : char) : (c =? newline)%N = true -> isspace c = true.
Proof. intros H. apply N.eqb_eq in H. now subst. Qed.

Lemma lstrip_nil (s : str) : lstrip s = [] <-> blank s = true.
Proof.
  unfold blank. induction s as [|c s IH]; simpl.
  - tauto.
  - destruct (isspace c); simpl; [assumption|]. split; discriminate.
Qed.

Lemma lstrip_blank (s : str) : blank s = true -> lstrip s = [].
Proof. apply lstrip_nil. Qed.

Lemma blank_app (a b : str) : blank (a ++ b) = blank a && blank b.
Proof. apply forallb_app. Qed.

Lemma blank_rev (a : str) : blank (rev a) = blank a.
Proof.
  induction a as [|c a IH]; simpl; [reflexivity|].
  rewrite blank_app, IH. simpl. rewrite andb_true_r. apply andb_comm.
Qed.

Lemma blank_lstrip (s : str) : blank (lstrip s) = blank s.
Proof.
  induction s as [|c s IH]; simpl; [reflexivity|].
  destruct (isspace c) eqn:E; simpl; [assumption|]. now rewrite E.
Qed.

Lemma lstrip_app_nonblank (a b : str) :
  blank a = false -> lstrip (a ++ b) = lstrip a ++ b.
Proof.
  induction a as [|c a IH]; simpl; [discriminate|].
  destruct (isspace c); simpl; [assumption|reflexivity].
Qed.

(** [line.strip()] is truthy exactly on the non-blank lines. *)
Lemma nonempty_strip (l : str) : nonempty (strip l) = negb (blank l).
Proof.
  unfold strip, rstrip.
  destruct (lstrip (rev (lstrip l))) as [|c m] eqn:E.
  - apply lstrip_nil in E. rewrite blank_rev, blank_lstrip in E.
    now rewrite E.
  - assert (H : blank l = false).
    { destruct (blank l) eqn:B; [|reflexivity].
      rewrite <- blank_lstrip, <- blank_rev in B.
      apply lstrip_nil in B. congruence. }
    rewrite H. simpl. destruct (rev m ++ [c]) eqn:E'; [|reflexivity].
    now apply app_eq_nil in E' as [_ ?].
Qed.

Lemma strip_cons_space (c : char) (l : str) :
  isspace c = true -> strip (c :: l) = strip l.
Proof. intros H. unfold strip. simpl. now rewrite H. Qed.

Lemma strip_snoc_space (c : char) (l : str) :
  isspace c = true -> strip (l ++ [c]) = strip l.
Proof.
  intros H. unfold strip.
  destruct (blank l) eqn:B.
  - rewrite (lstrip_blank l B), lstrip_blank; [reflexivity|].
    rewrite blank_app, B. simpl. now rewrite H.
  - rewrite lstrip_app_nonblank by assumption.
    unfold rstrip. rewrite rev_app_distr. simpl. now rewrite H.
Qed.

Lemma strip_nil : strip [] = [].
Proof. reflexivity. Qed.

Lemma split_nl_nonempty (s : str) : split_nl s <> [].
Proof.
  induction s as [|c s IH]; simpl; [discriminate|].
  destruct (c =? newline)%N; [discriminate|].
  destruct (split_nl s); [contradiction|discriminate].
Qed.

Lemma split_nl_snoc (s : str) (c : char) :
  split_nl (s ++ [c]) =
  if (c =? newline)%N then split_nl s ++ [[]]
  else removelast (split_nl s) ++ [last (split_nl s) [] ++ [c]].
Proof.
  induction s as [|x s IH]; simpl.
  - destruct (c =? newline)%N; reflexivity.
  - rewrite IH. pose proof (split_nl_nonempty s) as Hne.
    destruct (x =? newline)%N.
    + destruct (c =? newline)%N; [reflexivity|].
      destruct (split_nl s) as [|l ls]; [contradiction|]. reflexivity.
    + destruct (c =? newline)%N.
      * destruct (split_nl s) as [|l ls]; [contradiction|]. reflexivity.
      * destruct (split_nl s) as [|l ls]; [contradiction|].
        destruct ls as [|l' ls]; reflexivity.
Qed.

End StringFacts.

(** ** Row Builder *)

Section RowBuilder.

Lemma names_cons_space (c : char) (t : str) :
  isspace c = true -> names (c :: t) = names t.
Proof.
  intros H. unfold names. simpl.
  destruct (c =? newline)%N; simpl; [reflexivity|].
  pose proof (split_nl_nonempty t) as Hne.
  destruct (split_nl t) as [|l ls]; [contradiction|]. simpl.
  now rewrite strip_cons_space.
Qed.

Lemma names_snoc_space (c : char) (t : str) :
  isspace c = true -> names (t ++ [c]) = names t.
Proof.
  intros H. unfold names. rewrite split_nl_snoc.
  destruct (c =? newline)%N.
  - rewrite map_app, filter_app. simpl. apply app_nil_r.
  - pose proof (split_nl_nonempty t) as Hne.
    rewrite (app_removelast_last [] Hne) at 3.
    rewrite !map_app, !filter_app. simpl.
    now rewrite strip_snoc_space.
Qed.

Lemma names_lstrip (s : str) : names (lstrip s) = names s.
Proof.
  induction s as [|c s IH]; simpl; [reflexivity|].
  destruct (isspace c) eqn:E; [|reflexivity].
  now rewrite names_cons_space.
Qed.

Lemma names_rstrip (s : str) : names (rstrip s) = names s.
Proof.
  unfold rstrip. rewrite <- (rev_involutive s) at 2.
  induction (rev s) as [|c u IH]; simpl; [reflexivity|].
  destruct (isspace c) eqn:E; [|reflexivity].
  now rewrite names_snoc_space.
Qed.

(** Stripping the chunk first loses no company name. *)
Lemma names_strip (s : str) : names (strip s) = names s.
Proof. unfold strip. now rewrite names_rstrip, names_lstrip. Qed.

Lemma length_names (s : str) : length (names s) = nonblank_lines s.
Proof.
  unfold names, nonblank_lines.
  induction (split_nl s) as [|l ls IH]; simpl; [reflexivity|].
  rewrite nonempty_strip. destruct (blank l); simpl; now rewrite IH.
Qed.

Lemma length_number (i n : nat) (l : list str) :
  length (number i n l) = length l.
Proof. revert n; induction l; simpl; intros; [reflexivity|]. now rewrite IHl. Qed.

Lemma lines_loop_number (i : nat) (lines : list str) (rows : list row) :
  lines_loop i lines rows =
  rows ++ number i (length rows) (filter nonempty (map strip lines)).
Proof.
  revert rows; induction lines as [|line rest IH]; intros rows; simpl.
  - now rewrite app_nil_r.
  - rewrite IH. destruct (nonempty (strip line)); [|reflexivity].
    rewrite <- app_assoc, length_app. simpl.
    now rewrite Nat.add_1_r.
Qed.

Lemma chunks_loop_table (i : nat) (chunks : list chunk) (rows : list row) :
  chunks_loop i chunks rows = rows ++ table i (length rows) chunks.
Proof.
  revert i rows; induction chunks as [|ch rest IH]; intros i rows; simpl.
  - now rewrite app_nil_r.
  - rewrite IH, lines_loop_number.
    fold (names (strip (content ch))). rewrite names_strip.
    now rewrite <- app_assoc, length_app.
Qed.

Lemma rows_from_chunks_table (chunks : list chunk) :
  rows_from_chunks chunks = table 0 0 chunks.
Proof. unfold rows_from_chunks. now rewrite chunks_loop_table. Qed.

Lemma table_app (i n : nat) (a b : list chunk) :
  table i n (a ++ b) =
  table i n a ++ table (i + length a) (n + length (table i n a)) b.
Proof.
  revert i n; induction a as [|ch a IH]; intros i n; simpl.
  - now rewrite !Nat.add_0_r.
  - rewrite IH, <- app_assoc, length_app.
    now rewrite Nat.add_succ_r, Nat.add_assoc.
Qed.

Lemma length_table (i n : nat) (chunks : list chunk) :
  length (table i n chunks) =
  list_sum (map (fun ch => nonblank_lines (content ch)) chunks).
Proof.
  revert i n; induction chunks as [|ch rest IH]; intros i n; simpl.
  - reflexivity.
  - now rewrite length_app, length_number, length_names, IH.
Qed.

Lemma number_cells (i n : nat) (l : list str) :
  Forall (fun r => cells r = []) (number i n l).
Proof. revert n; induction l; simpl; intros; constructor; auto. Qed.

Lemma number_suffixes (i n : nat) (l : list str) :
  map (fun r => id_suffix (id r)) (number i n l) =
  map of_nat (seq n (length l)).
Proof.
  revert n; induction l as [|s l IH]; intros n; simpl; [reflexivity|].
  now rewrite id_suffix_row_id, IH.
Qed.

(** The running count is the last component of every identifier. *)
Lemma table_suffixes (i n : nat) (chunks : list chunk) :
  map (fun r => id_suffix (id r)) (table i n chunks) =
  map of_nat (seq n (length (table i n chunks))).
Proof.
  revert i n; induction chunks as [|ch rest IH]; intros i n; simpl.
  - reflexivity.
  - rewrite map_app, length_app, seq_app, map_app, IH, number_suffixes.
    now rewrite length_number.
Qed.

Lemma table_ids_unique (i n : nat) (chunks : list chunk) :
  NoDup (map id (table i n chunks)).
Proof.
  apply (NoDup_map_inv id_suffix). rewrite map_map, table_suffixes.
  apply NoDup_map_NoDup_ForallPairs; [|apply seq_NoDup].
  intros a b _ _. apply of_nat_inj.
Qed.

Lemma list_sum_zero (l : list nat) :
  Forall (fun n => n = 0) l -> list_sum l = 0.
Proof. induction 1; simpl; lia. Qed.

End RowBuilder.

Section Trimming.

Lemma lstrip_head (s : str) (c : char) :
  hd_error (lstrip s) = Some c -> isspace c = false.
Proof.
  induction s as [|x s IH]; simpl; [discriminate|].
  destruct (isspace x) eqn:E; [assumption|].
  simpl. intros [= <-]. assumption.
Qed.

Lemma lstrip_suffix (s : str) : exists ws, s = ws ++ lstrip s.
Proof.
  induction s as [|x s [ws IH]]; simpl; [now exists []|].
  destruct (isspace x).
  - exists (x :: ws). simpl. now f_equal.
  - now exists [].
Qed.

Lemma rstrip_prefix (s : str) : exists ws, s = rstrip s ++ ws.
Proof.
  unfold rstrip. destruct (lstrip_suffix (rev s)) as [ws E].
  exists (rev ws). rewrite <- rev_app_distr, <- E. now rewrite rev_involutive.
Qed.

Lemma lstrip_fixed (s : str) :
  (forall c, hd_error s = Some c -> isspace c = false) -> lstrip s = s.
Proof.
  destruct s as [|x s]; simpl; [reflexivity|].
  intros H. now rewrite (H x eq_refl).
Qed.

Lemma strip_trimmed (l : str) : trimmed (strip l).
Proof.
  unfold trimmed, strip. split; intros c H.
  - destruct (rstrip_prefix (lstrip l)) as [ws E].
    apply (lstrip_head l). rewrite E.
    destruct (rstrip (lstrip l)); [discriminate|assumption].
  - unfold rstrip in H. rewrite rev_involutive in H.
    now apply lstrip_head in H.
Qed.

Lemma trimmed_strip (s : str) : trimmed s -> strip s = s.
Proof.
  intros [H1 H2]. unfold strip, rstrip.
  rewrite (lstrip_fixed s H1), (lstrip_fixed (rev s) H2).
  apply rev_involutive.
Qed.

Lemma strip_idempotent (l : str) : strip (strip l) = strip l.
Proof. apply trimmed_strip, strip_trimmed. Qed.

Lemma in_names (text s : str) :
  In s (names text) ->
  exists line, In line (split_nl text) /\ blank line = false /\ s = strip line.
Proof.
  unfold names. intros H. apply filter_In in H as [H N].
  apply in_map_iff in H as (line & <- & Hl).
  exists line. repeat split; [assumption|].
  rewrite nonempty_strip in N. now destruct (blank line).
Qed.

Lemma in_number (i n : nat) (l : list str) (r : row) :
  In r (number i n l) -> In (sourceData r) l.
Proof.
  revert n; induction l as [|s l IH]; intros n; simpl; [tauto|].
  intros [<-|H]; [now left|right; eauto].
Qed.

Lemma in_table (i n : nat) (chunks : list chunk) (r : row) :
  In r (table i n chunks) ->
  exists ch s, In ch chunks /\ In s (names (content ch)) /\ sourceData r = s.
Proof.
  revert i n; induction chunks as [|ch rest IH]; intros i n; simpl; [tauto|].
  intros H. apply in_app_or in H as [H|H].
  - exists ch, (sourceData r). repeat split; [now left|].
    eapply in_number, H.
  - apply IH in H as (ch' & s & ? & ? & ?). exists ch', s. auto.
Qed.

End Trimming.

(** C1. Row construction: within any list of chunks, a chunk whose text
    has N non-blank lines contributes exactly N rows, each with an empty
    cell mapping; the identifiers of the whole row set are pairwise
    distinct; the number of rows is the sum of the chunks' non-blank line
    counts, so it is zero when there is no chunk or every chunk is blank. *)
Theorem rows_from_chunks_count (chunks : list chunk) :
  (forall pre ch post, chunks = pre ++ ch :: post ->
     exists new later,
       rows_from_chunks (pre ++ [ch]) = rows_from_chunks pre ++ new /\
       rows_from_chunks chunks = rows_from_chunks pre ++ new ++ later /\
       length new = nonblank_lines (content ch) /\
       Forall (fun r => cells r = []) new) /\
  NoDup (map id (rows_from_chunks chunks)) /\
  length (rows_from_chunks chunks) =
    list_sum (map (fun ch => nonblank_lines (content ch)) chunks) /\
  rows_from_chunks [] = [] /\
  (Forall (fun ch => nonblank_lines (content ch) = 0) chunks ->
   rows_from_chunks chunks = []).
Proof.
  repeat split.
  - intros pre ch post ->.
    rewrite !rows_from_chunks_table, !table_app. simpl.
    rewrite app_nil_r.
    eexists. eexists.
    split; [reflexivity|]. split; [reflexivity|].
    split; [|apply number_cells].
    now rewrite length_number, length_names.
  - rewrite rows_from_chunks_table. apply table_ids_unique.
  - rewrite rows_from_chunks_table. apply length_table.
  - intros H. apply length_zero_iff_nil.
    rewrite rows_from_chunks_table, length_table.
    apply list_sum_zero. now apply Forall_map.
Qed.

(** The chunk used in the scenarios: ["Acme Corp\n\nBeta Inc\n"]. *)
Lemma rows_from_chunks_count_witness :
  exists new later,
    rows_from_chunks ([] ++ [mk_chunk (lit "Acme Corp" ++ [newline; newline]
                                         ++ lit "Beta Inc" ++ [newline])])
      = rows_from_chunks [] ++ new /\
    rows_from_chunks [mk_chunk (lit "Acme Corp" ++ [newline; newline]
                                 ++ lit "Beta Inc" ++ [newline])]
      = rows_from_chunks [] ++ new ++ later /\
    length new = nonblank_lines (lit "Acme Corp" ++ [newline; newline]
                                 ++ lit "Beta Inc" ++ [newline]) /\
    Forall (fun r => cells r = []) new.
Proof.
  exact (proj1 (rows_from_chunks_count
           [mk_chunk (lit "Acme Corp" ++ [newline; newline]
                      ++ lit "Beta Inc" ++ [newline])])
         [] _ [] eq_refl).
Defined.

(** C10. Trimmed company names: the [sourceData] of every row is a
    non-blank line of some chunk with its surrounding whitespace removed;
    it is not empty and neither starts nor ends with a whitespace
    character. *)
Theorem sourceData_trimmed (chunks : list chunk) (r : row) :
  In r (rows_from_chunks chunks) ->
  (exists ch line,
     In ch chunks /\ In line (split_nl (content ch)) /\
     blank line = false /\ sourceData r = strip line) /\
  sourceData r <> [] /\
  trimmed (sourceData r) /\
  strip (sourceData r) = sourceData r.
Proof.
  rewrite rows_from_chunks_table. intros H.
  apply in_table in H as (ch & s & Hch & Hs & ->).
  apply in_names in Hs as (line & Hl & Hb & ->).
  split; [exists ch, line; auto|].
  split.
  - intros E. pose proof (nonempty_strip line) as N.
    rewrite E, Hb in N. discriminate.
  - split; [apply strip_trimmed|apply strip_idempotent].
Qed.

Lemma sourceData_trimmed_witness :
  (exists ch line,
     In ch [mk_chunk (lit "  Acme Corp ")] /\ In line (split_nl (content ch)) /\
     blank line = false /\ lit "Acme Corp" = strip line) /\
  lit "Acme Corp" <> [] /\
  trimmed (lit "Acme Corp") /\
  strip (lit "Acme Corp") = lit "Acme Corp".
Proof.
  apply (sourceData_trimmed [mk_chunk (lit "  Acme Corp ")]
           (mk_row (row_id 0 0) (lit "Acme Corp") false [])).
  vm_compute. left. reflexivity.
Defined.

(** ** Aggregation *)

Section Aggregation.

Lemma last_cons (A : Type) (x d : A) (l : list A) :
  last (x :: l) d = last l x.
Proof.
  revert x d; induction l as [|y l IH]; intros x d; [reflexivity|].
  change (last (x :: y :: l) d) with (last (y :: l) d).
  now rewrite !IH.
Qed.

Lemma last_answer_cons (r : row) (col : str) (x : cell) (cells : list cell)
  (dflt : json) :
  last_answer r col (x :: cells) dflt =
  last_answer r col cells
    (if Str.eqb (rowId x) (id r) && Str.eqb (columnId x) col
     then answer x else dflt).
Proof.
  unfold last_answer. simpl.
  destruct (Str.eqb (rowId x) (id r) && Str.eqb (columnId x) col);
    [|reflexivity].
  simpl map. apply last_cons.
Qed.

(** One iteration over a cell keeps the shape of the dictionary. *)
Lemma cell_step_result (r : row) (x : cell) (name : str) (a b c : json) :
  cell_step r x (result_of name a b c) =
  result_of name
    (if Str.eqb (rowId x) (id r) && Str.eqb (columnId x) (lit "is_indian")
     then answer x else a)
    (if Str.eqb (rowId x) (id r) && Str.eqb (columnId x) (lit "is_startup")
     then answer x else b)
    (if Str.eqb (rowId x) (id r) && Str.eqb (columnId x) (lit "is_tech")
     then answer x else c).
Proof.
  unfold cell_step. destruct x as [rid cid ans]; simpl rowId; simpl columnId;
    simpl answer.
  destruct (Str.eqb rid (id r)); simpl andb; [|reflexivity].
  destruct (Str.eqb cid (lit "is_indian")) eqn:E1.
  { apply eqb_eq in E1. subst cid. reflexivity. }
  destruct (Str.eqb cid (lit "is_startup")) eqn:E2.
  { apply eqb_eq in E2. subst cid. reflexivity. }
  destruct (Str.eqb cid (lit "is_tech")) eqn:E3.
  { apply eqb_eq in E3. subst cid. reflexivity. }
  reflexivity.
Qed.

(** The loop over the cells leaves, in each field, the answer of the
    last cell for this row and that column. *)
Lemma cells_loop_result (r : row) (cells : list cell) (name : str)
  (a b c : json) :
  cells_loop r cells (result_of name a b c) =
  result_of name
    (last_answer r (lit "is_indian") cells a)
    (last_answer r (lit "is_startup") cells b)
    (last_answer r (lit "is_tech") cells c).
Proof.
  revert a b c; induction cells as [|x cells IH]; intros a b c.
  - reflexivity.
  - simpl cells_loop. rewrite cell_step_result, IH.
    now rewrite !last_answer_cons.
Qed.

Lemma rows_loop_map (rows : list row) (cells : list cell)
  (results : list (Dict.dict json)) :
  rows_loop rows cells results =
  results ++ map (fun r => cells_loop r cells (company_data_init r)) rows.
Proof.
  revert results; induction rows as [|r rows IH]; intros results; simpl.
  - now rewrite app_nil_r.
  - now rewrite IH, <- app_assoc.
Qed.

Lemma aggregate_map (rows : list row) (cells : list cell) :
  aggregate rows cells =
  map (fun r =>
         result_of (sourceData r)
           (last_answer r (lit "is_indian") cells NA)
           (last_answer r (lit "is_startup") cells NA)
           (last_answer r (lit "is_tech") cells NA)) rows.
Proof.
  unfold aggregate. rewrite rows_loop_map. simpl. apply map_ext.
  intros r. apply cells_loop_result.
Qed.

Lemma matching_none (r : row) (col : str) (cells : list cell) :
  (forall c, In c cells -> rowId c <> id r) -> matching r col cells = [].
Proof.
  intros H. unfold matching.
  induction cells as [|x cells IH]; simpl; [reflexivity|].
  assert (E : Str.eqb (rowId x) (id r) = false)
    by (apply eqb_neq, H; now left).
  rewrite E. simpl. apply IH. intros c Hc. apply H. now right.
Qed.

Lemma matching_app (r : row) (col : str) (a b : list cell) :
  matching r col (a ++ b) = matching r col a ++ matching r col b.
Proof. apply filter_app. Qed.

Lemma cells_loop_skip (r : row) (before after : list cell) (c : cell)
  (d : Dict.dict json) :
  (forall d', cell_step r c d' = d') ->
  cells_loop r (before ++ c :: after) d = cells_loop r (before ++ after) d.
Proof.
  intros H. revert d; induction before as [|x before IH]; intros d; simpl.
  - now rewrite H.
  - apply IH.
Qed.

Lemma cell_step_unknown_row (r : row) (c : cell) (d : Dict.dict json) :
  id r <> rowId c -> cell_step r c d = d.
Proof.
  intros H. unfold cell_step.
  assert (E : Str.eqb (rowId c) (id r) = false) by (apply eqb_neq; congruence).
  now rewrite E.
Qed.

Lemma cell_step_unknown_column (r : row) (c : cell) (d : Dict.dict json) :
  known_column (columnId c) = false -> cell_step r c d = d.
Proof.
  unfold known_column, cell_step. intros H.
  apply orb_false_iff in H as [H H3]. apply orb_false_iff in H as [H1 H2].
  rewrite H1, H2, H3. now destruct (Str.eqb (rowId c) (id r)).
Qed.

End Aggregation.

(** C2. Aggregation: the result of a row none of whose cells is in the
    response has "N/A" in its three answer fields; the result of a row
    with exactly one cell per column has those cells' answers. *)
Theorem aggregate_fields (rows : list row) (cells : list cell) (k : nat)
  (r : row) :
  nth_error rows k = Some r ->
  exists res,
    nth_error (aggregate rows cells) k = Some res /\
    Dict.get (lit "Company") res = Some (JStr (sourceData r)) /\
    ((forall c, In c cells -> rowId c <> id r) ->
     Dict.get (lit "Is Indian") res = Some (JStr (lit "N/A")) /\
     Dict.get (lit "Is Startup") res = Some (JStr (lit "N/A")) /\
     Dict.get (lit "Is Tech") res = Some (JStr (lit "N/A"))) /\
    (forall ci cs ct,
       matching r (lit "is_indian") cells = [ci] ->
       matching r (lit "is_startup") cells = [cs] ->
       matching r (lit "is_tech") cells = [ct] ->
       Dict.get (lit "Is Indian") res = Some (answer ci) /\
       Dict.get (lit "Is Startup") res = Some (answer cs) /\
       Dict.get (lit "Is Tech") res = Some (answer ct)).
Proof.
  intros H. rewrite aggregate_map. eexists.
  split; [apply map_nth_error, H|].
  split; [reflexivity|]. split.
  - intros N. unfold last_answer. rewrite !matching_none by assumption.
    repeat split.
  - intros ci cs ct Hi Hs Ht. unfold last_answer. rewrite Hi, Hs, Ht.
    repeat split.
Qed.

Lemma aggregate_fields_witness :
  exists res,
    nth_error (aggregate [mk_row (row_id 0 0) (lit "Acme Corp") false []]
                 [mk_cell (row_id 0 1) (lit "is_tech") (JBool true)]) 0
      = Some res /\
    Dict.get (lit "Company") res = Some (JStr (lit "Acme Corp")) /\
    ((forall c, In c [mk_cell (row_id 0 1) (lit "is_tech") (JBool true)] ->
        rowId c <> row_id 0 0) ->
     Dict.get (lit "Is Indian") res = Some (JStr (lit "N/A")) /\
     Dict.get (lit "Is Startup") res = Some (JStr (lit "N/A")) /\
     Dict.get (lit "Is Tech") res = Some (JStr (lit "N/A"))) /\
    (forall ci cs ct,
       matching (mk_row (row_id 0 0) (lit "Acme Corp") false [])
         (lit "is_indian") [mk_cell (row_id 0 1) (lit "is_tech") (JBool true)]
         = [ci] ->
       matching (mk_row (row_id 0 0) (lit "Acme Corp") false [])
         (lit "is_startup") [mk_cell (row_id 0 1) (lit "is_tech") (JBool true)]
         = [cs] ->
       matching (mk_row (row_id 0 0) (lit "Acme Corp") false [])
         (lit "is_tech") [mk_cell (row_id 0 1) (lit "is_tech") (JBool true)]
         = [ct] ->
       Dict.get (lit "Is Indian") res = Some (answer ci) /\
       Dict.get (lit "Is Startup") res = Some (answer cs) /\
       Dict.get (lit "Is Tech") res = Some (answer ct)).
Proof.
  exact (aggregate_fields
           [mk_row (row_id 0 0) (lit "Acme Corp") false []]
           [mk_cell (row_id 0 1) (lit "is_tech") (JBool true)] 0 eq_refl).
Defined.

(** C7. Scenario: the single chunk ["Acme Corp\n\nBeta Inc\n"] yields the
    two rows "Acme Corp" and "Beta Inc"; with a response holding cells for
    the first row only, one per column, the first result carries the three
    answers and the second has "N/A" in its three fields. *)
Theorem scenario_acme_beta :
  rows_from_chunks [mk_chunk scenario_content] =
    [ mk_row (lit "row_0_0") (lit "Acme Corp") false [];
      mk_row (lit "row_0_1") (lit "Beta Inc") false [] ] /\
  forall cells ci cs ct,
    (forall c, In c cells -> rowId c = lit "row_0_0") ->
    matching (mk_row (lit "row_0_0") (lit "Acme Corp") false [])
      (lit "is_indian") cells = [ci] ->
    matching (mk_row (lit "row_0_0") (lit "Acme Corp") false [])
      (lit "is_startup") cells = [cs] ->
    matching (mk_row (lit "row_0_0") (lit "Acme Corp") false [])
      (lit "is_tech") cells = [ct] ->
    aggregate (rows_from_chunks [mk_chunk scenario_content]) cells =
      [ result_of (lit "Acme Corp") (answer ci) (answer cs) (answer ct);
        result_of (lit "Beta Inc") (JStr (lit "N/A")) (JStr (lit "N/A"))
          (JStr (lit "N/A")) ].
Proof.
  assert (E : rows_from_chunks [mk_chunk scenario_content] =
    [ mk_row (lit "row_0_0") (lit "Acme Corp") false [];
      mk_row (lit "row_0_1") (lit "Beta Inc") false [] ]) by (vm_compute; reflexivity).
  split; [exact E|].
  intros cells ci cs ct Hrow Hi Hs Ht.
  rewrite E, aggregate_map. simpl map. unfold last_answer.
  rewrite Hi, Hs, Ht.
  rewrite !matching_none; [reflexivity| | |];
    intros c Hc; rewrite (Hrow c Hc); simpl; discriminate.
Qed.

Lemma scenario_acme_beta_witness :
  aggregate (rows_from_chunks [mk_chunk scenario_content])
    [ mk_cell (lit "row_0_0") (lit "is_tech") (JStr (lit "Y"));
      mk_cell (lit "row_0_0") (lit "is_indian") (JStr (lit "N"));
      mk_cell (lit "row_0_0") (lit "is_startup") (JBool true) ] =
  [ result_of (lit "Acme Corp") (JStr (lit "N")) (JBool true) (JStr (lit "Y"));
    result_of (lit "Beta Inc") (JStr (lit "N/A")) (JStr (lit "N/A"))
      (JStr (lit "N/A")) ].
Proof.
  refine (proj2 scenario_acme_beta
            [ mk_cell (lit "row_0_0") (lit "is_tech") (JStr (lit "Y"));
              mk_cell (lit "row_0_0") (lit "is_indian") (JStr (lit "N"));
              mk_cell (lit "row_0_0") (lit "is_startup") (JBool true) ]
            (mk_cell (lit "row_0_0") (lit "is_indian") (JStr (lit "N")))
            (mk_cell (lit "row_0_0") (lit "is_startup") (JBool true))
            (mk_cell (lit "row_0_0") (lit "is_tech") (JStr (lit "Y")))
            _ eq_refl eq_refl eq_refl).
  intros c [<-|[<-|[<-|[]]]]; reflexivity.
Defined.

(** C8. Duplicate cells: when several cells of the response have the
    same rowId and columnId, the field of that row and column holds the
    answer of the last of them. *)
Theorem aggregate_last_cell_wins (rows : list row) (k : nat) (r : row)
  (before after : list cell) (c : cell) (field : str) :
  nth_error rows k = Some r ->
  rowId c = id r ->
  field_of (columnId c) = Some field ->
  (forall c', In c' after -> ~ (rowId c' = id r /\ columnId c' = columnId c)) ->
  exists res,
    nth_error (aggregate rows (before ++ c :: after)) k = Some res /\
    Dict.get field res = Some (answer c).
Proof.
  intros Hk Hrow Hf Hafter. rewrite aggregate_map. eexists.
  split; [apply map_nth_error, Hk|].
  assert (L : forall dflt,
             last_answer r (columnId c) (before ++ c :: after) dflt = answer c).
  { intros dflt. unfold last_answer.
    rewrite matching_app, map_app. simpl matching.
    rewrite Hrow, !eqb_refl. simpl.
    replace (matching r (columnId c) after) with (@nil cell).
    - simpl. change (answer c :: nil) with ([] ++ [answer c]).
      rewrite app_assoc. apply last_last.
    - symmetry. unfold matching.
      induction after as [|x after IH]; simpl; [reflexivity|].
      destruct (Str.eqb (rowId x) (id r) && Str.eqb (columnId x) (columnId c))
        eqn:E.
      + apply andb_true_iff in E as [E1 E2].
        apply eqb_eq in E1, E2. exfalso.
        apply (Hafter x); [now left|]. split; assumption.
      + apply IH. intros c' Hc'. apply Hafter. now right. }
  unfold field_of in Hf.
  destruct (Str.eqb (columnId c) (lit "is_indian")) eqn:E1.
  { injection Hf as <-. apply eqb_eq in E1. rewrite <- E1, L. reflexivity. }
  destruct (Str.eqb (columnId c) (lit "is_startup")) eqn:E2.
  { injection Hf as <-. apply eqb_eq in E2. rewrite <- E2, L. reflexivity. }
  destruct (Str.eqb (columnId c) (lit "is_tech")) eqn:E3.
  { injection Hf as <-. apply eqb_eq in E3. rewrite <- E3, L. reflexivity. }
  discriminate.
Qed.

Lemma aggregate_last_cell_wins_witness :
  exists res,
    nth_error
      (aggregate [mk_row (lit "row_0_0") (lit "Acme Corp") false []]
         ([mk_cell (lit "row_0_0") (lit "is_startup") (JStr (lit "Y"))]
          ++ mk_cell (lit "row_0_0") (lit "is_startup") (JStr (lit "N"))
          :: [mk_cell (lit "row_0_0") (lit "is_tech") (JStr (lit "Y"))])) 0
      = Some res /\
    Dict.get (lit "Is Startup") res = Some (JStr (lit "N")).
Proof.
  refine (aggregate_last_cell_wins
            [mk_row (lit "row_0_0") (lit "Acme Corp") false []] 0
            [mk_cell (lit "row_0_0") (lit "is_startup") (JStr (lit "Y"))]
            [mk_cell (lit "row_0_0") (lit "is_tech") (JStr (lit "Y"))]
            (mk_cell (lit "row_0_0") (lit "is_startup") (JStr (lit "N")))
            eq_refl eq_refl eq_refl _).
  intros c' [<-|[]] [_ H]. discriminate H.
Defined.

(** C9. Unknown cells: a cell whose rowId is the identifier of no row, or
    whose columnId is none of the three known ones, changes no result;
    the aggregation is a total function and every result has exactly the
    four keys of the literal. *)
Theorem aggregate_ignores_unknown (rows : list row) (before after : list cell)
  (c : cell) :
  (forall r, In r rows -> id r <> rowId c) \/ known_column (columnId c) = false ->
  aggregate rows (before ++ c :: after) = aggregate rows (before ++ after) /\
  length (aggregate rows (before ++ c :: after)) = length rows /\
  Forall (fun res =>
            Dict.keys res =
            [lit "Company"; lit "Is Indian"; lit "Is Startup"; lit "Is Tech"])
    (aggregate rows (before ++ c :: after)).
Proof.
  intros H. split; [|split].
  - unfold aggregate. rewrite !rows_loop_map. simpl.
    apply map_ext_in. intros r Hr. apply cells_loop_skip. intros d.
    destruct H as [H|H].
    + apply cell_step_unknown_row, H, Hr.
    + now apply cell_step_unknown_column.
  - rewrite aggregate_map. apply length_map.
  - rewrite aggregate_map. apply Forall_map, Forall_forall.
    intros r _. reflexivity.
Qed.

Lemma aggregate_ignores_unknown_witness :
  aggregate [mk_row (lit "row_0_0") (lit "Acme Corp") false []]
    ([mk_cell (lit "row_0_0") (lit "is_tech") (JStr (lit "Y"))]
     ++ mk_cell (lit "row_0_0") (lit "is_public") (JStr (lit "N")) :: []) =
  aggregate [mk_row (lit "row_0_0") (lit "Acme Corp") false []]
    ([mk_cell (lit "row_0_0") (lit "is_tech") (JStr (lit "Y"))] ++ []).
Proof.
  refine (proj1 (aggregate_ignores_unknown
            [mk_row (lit "row_0_0") (lit "Acme Corp") false []]
            [mk_cell (lit "row_0_0") (lit "is_tech") (JStr (lit "Y"))] []
            (mk_cell (lit "row_0_0") (lit "is_public") (JStr (lit "N"))) _)).
  right. reflexivity.
Defined.

Lemma distinct_NoDup (l : list str) : distinct l = true -> NoDup l.
Proof.
  induction l as [|x l IH]; simpl; intros H; constructor.
  - apply andb_true_iff in H as [H _]. intros Hin.
    apply negb_true_iff in H.
    assert (E : existsb (Str.eqb x) l = true).
    { apply existsb_exists. exists x. split; [assumption|apply eqb_refl]. }
    congruence.
  - apply IH. now apply andb_true_iff in H as [_ H].
Qed.

(** C6. Column Builder: three column descriptors are returned; the query
    of the technology column is the fixed prompt followed by the labels of
    [TECH_AREAS] joined with a comma and a space, and every label occurs
    in it exactly once. *)
Theorem create_table_columns_three :
  length create_table_columns = 3 /\
  map col_id create_table_columns =
    [lit "is_indian"; lit "is_startup"; lit "is_tech"] /\
  (forall c, In c create_table_columns -> col_id c = lit "is_tech" ->
     col_query c =
       lit "Is this company related to technology, specifically in any of these areas: "
       ++ join (lit ", ") TECH_AREAS ++ lit "?" /\
     Forall (fun label => occurrences label (col_query c) = 1) TECH_AREAS) /\
  NoDup TECH_AREAS /\
  length TECH_AREAS = 30.
Proof.
  split; [reflexivity|]. split; [reflexivity|]. split; [|split; [|reflexivity]].
  - intros c [<-|[<-|[<-|[]]]] E; try discriminate E.
    split; [reflexivity|].
    apply Forall_forall. intros label Hl. apply Nat.eqb_eq. revert label Hl.
    apply forallb_forall. vm_compute. reflexivity.
  - apply distinct_NoDup. vm_compute. reflexivity.
Qed.

(** ** The workflow *)

Section Workflow.

Variable w : world.
Variable pdf_path : str.

Lemma upload_pdf_run (r : response str) (t : list event) :
  uploaded w pdf_path r ->
  upload_pdf w pdf_path t =
  ((if (status_code r =? 201)%Z then resp_json r
    else inl (lit "Failed to upload document: " ++ text r)),
   t ++ [Request (lit "POST") document_url]).
Proof.
  intros (f & Hf & Hp). unfold upload_pdf, bind, call, emit.
  rewrite Hf. cbn [ret raise]. fold document_url. rewrite Hp. cbn [ret].
  destruct (status_code r =? 201)%Z; cbn [negb raise]; [|reflexivity].
  now destruct (resp_json r).
Qed.

Lemma create_table_rows_run (document_id : str) (r : response (list chunk))
  (t : list event) :
  get_chunks w (chunks_url document_id) = inr r ->
  create_table_rows w document_id t =
  ((if (status_code r =? 200)%Z
    then match resp_json r with
         | inr chunks => inr (rows_from_chunks chunks)
         | inl e => inl e
         end
    else inl (lit "Failed to get document chunks: " ++ text r)),
   t ++ [Request (lit "GET") (chunks_url document_id)]).
Proof.
  intros Hg. unfold create_table_rows, bind, call, emit.
  fold (chunks_url document_id). rewrite Hg. cbn [ret].
  destruct (status_code r =? 200)%Z; cbn [negb raise]; [|reflexivity].
  now destruct (resp_json r).
Qed.

Lemma generate_table_cells_run (columns : list column) (rows : list row)
  (r : response (list cell)) (t : list event) :
  post_generate_cells w generate_cells_url columns rows = inr r ->
  generate_table_cells w columns rows t =
  ((if (status_code r =? 200)%Z then resp_json r
    else inl (lit "Failed to generate cells: " ++ text r)),
   t ++ [Request (lit "POST") generate_cells_url]).
Proof.
  intros Hg. unfold generate_table_cells, bind, call, emit.
  fold generate_cells_url. rewrite Hg. cbn [ret].
  destruct (status_code r =? 200)%Z; cbn [negb raise]; [|reflexivity].
  now destruct (resp_json r).
Qed.

End Workflow.

(** C4. A status code other than 201 from the upload endpoint: the upload
    step raises an exception whose message carries the response body;
    the run consists of the upload request and the error message printed
    by the handler, and of nothing else. *)
Theorem upload_failure_stops (w : world) (pdf_path : str) (r : response str) :
  uploaded w pdf_path r ->
  status_code r <> 201%Z ->
  upload_pdf w pdf_path [] =
    (inl (lit "Failed to upload document: " ++ text r),
     [Request (lit "POST") document_url]) /\
  process_pdf_and_classify_companies w pdf_path =
    [ Request (lit "POST") document_url;
      Print (lit "Error: " ++ lit "Failed to upload document: " ++ text r) ].
Proof.
  intros Hu Hs. apply Z.eqb_neq in Hs.
  assert (E := upload_pdf_run [] Hu). rewrite Hs in E. split; [exact E|].
  unfold process_pdf_and_classify_companies, workflow, bind. now rewrite E.
Qed.

Lemma upload_failure_stops_witness :
  process_pdf_and_classify_companies
    (scenario_world
       (mk_response 500%Z (lit "Internal Server Error") (inl (lit "not JSON")))
       (mk_response 200%Z [] (inr [])) (mk_response 200%Z [] (inr [])))
    (lit "companies.pdf") =
  [ Request (lit "POST") document_url;
    Print (lit "Error: " ++ lit "Failed to upload document: "
           ++ lit "Internal Server Error") ].
Proof.
  refine (proj2 (upload_failure_stops
            (w := scenario_world
               (mk_response 500%Z (lit "Internal Server Error")
                  (inl (lit "not JSON")))
               (mk_response 200%Z [] (inr [])) (mk_response 200%Z [] (inr [])))
            (pdf_path := lit "companies.pdf")
            (r := mk_response 500%Z (lit "Internal Server Error")
                    (inl (lit "not JSON"))) _ _)).
  - exists [37; 80; 68; 70]%N. split; reflexivity.
  - simpl. discriminate.
Defined.

(** C5. Error atomicity: when the upload, the chunk request or the
    generate-cells request is answered with an unexpected status code,
    the exception reaches the handler of the workflow function, whose
    last action is to print the message; the run writes no file. *)
Theorem http_failure_writes_nothing (w : world) (pdf_path : str) (msg : exn) :
  http_failure w pdf_path msg ->
  exists t,
    workflow w pdf_path [] = (inl msg, t) /\
    process_pdf_and_classify_companies w pdf_path =
      t ++ [Print (lit "Error: " ++ msg)] /\
    existsb is_write (process_pdf_and_classify_companies w pdf_path) = false.
Proof.
  intros H.
  assert (G : exists t, workflow w pdf_path [] = (inl msg, t) /\
                        existsb is_write t = false).
  { destruct H as [r Hu Hs | r document_id r' Hu Hs Hj Hg Hs'
                  | r document_id r' chunks r'' Hu Hs Hj Hg Hs' Hj' Hc Hs''].
    - apply Z.eqb_neq in Hs. eexists. unfold workflow, bind.
      rewrite (upload_pdf_run _ Hu), Hs. split; reflexivity.
    - apply Z.eqb_eq in Hs. apply Z.eqb_neq in Hs'.
      eexists. unfold workflow, bind, print, emit.
      rewrite (upload_pdf_run _ Hu), Hs, Hj.
      rewrite (create_table_rows_run w document_id _ Hg), Hs'. split; reflexivity.
    - apply Z.eqb_eq in Hs, Hs'. apply Z.eqb_neq in Hs''.
      eexists. unfold workflow, bind, print, emit.
      rewrite (upload_pdf_run _ Hu), Hs, Hj.
      rewrite (create_table_rows_run w document_id _ Hg), Hs', Hj'.
      rewrite (generate_table_cells_run w _ _ _ Hc), Hs''. split; reflexivity. }
  destruct G as (t & E & W). exists t. split; [exact E|].
  unfold process_pdf_and_classify_companies. rewrite E. split; [reflexivity|].
  rewrite existsb_app, W. reflexivity.
Qed.

Lemma http_failure_writes_nothing_witness :
  exists t,
    workflow
      (scenario_world (mk_response 201%Z [] (inr (lit "doc-1")))
         (mk_response 200%Z [] (inr [mk_chunk scenario_content]))
         (mk_response 503%Z (lit "Service Unavailable") (inr scenario_cells)))
      (lit "companies.pdf") [] =
      (inl (lit "Failed to generate cells: " ++ lit "Service Unavailable"), t) /\
    process_pdf_and_classify_companies
      (scenario_world (mk_response 201%Z [] (inr (lit "doc-1")))
         (mk_response 200%Z [] (inr [mk_chunk scenario_content]))
         (mk_response 503%Z (lit "Service Unavailable") (inr scenario_cells)))
      (lit "companies.pdf") =
      t ++ [Print (lit "Error: " ++ lit "Failed to generate cells: "
                   ++ lit "Service Unavailable")] /\
    existsb is_write
      (process_pdf_and_classify_companies
         (scenario_world (mk_response 201%Z [] (inr (lit "doc-1")))
            (mk_response 200%Z [] (inr [mk_chunk scenario_content]))
            (mk_response 503%Z (lit "Service Unavailable") (inr scenario_cells)))
         (lit "companies.pdf")) = false.
Proof.
  apply http_failure_writes_nothing.
  apply generate_cells_failure
    with (r := mk_response 201%Z [] (inr (lit "doc-1")))
         (document_id := lit "doc-1")
         (r' := mk_response 200%Z [] (inr [mk_chunk scenario_content]))
         (chunks := [mk_chunk scenario_content])
         (r'' := mk_response 503%Z (lit "Service Unavailable")
                   (inr scenario_cells));
    try reflexivity.
  - exists [37; 80; 68; 70]%N. split; reflexivity.
  - simpl. discriminate.
Defined.

(** ** The [json] module: reading back what was written *)

Section JsonRoundTrip.

Import Json.

Lemma hex_value (n : N) : (n < 65536)%N ->
  ((((n / 4096 mod 16) * 16 + n / 256 mod 16) * 16 + n / 16 mod 16) * 16 + n mod 16 = n)%N.
Proof.
  intros H.
  replace (n / 256)%N with (n / 16 / 16)%N by (now rewrite N.Div0.div_div).
  replace (n / 4096)%N with (n / 16 / 16 / 16)%N by (now rewrite !N.Div0.div_div).
  pose proof (N.div_mod n 16 ltac:(discriminate)) as E0.
  pose proof (N.div_mod (n / 16) 16 ltac:(discriminate)) as E1.
  pose proof (N.div_mod (n / 16 / 16) 16 ltac:(discriminate)) as E2.
  assert (B : (n / 16 / 16 / 16 < 16)%N).
  { rewrite !N.Div0.div_div. apply N.Div0.div_lt_upper_bound. exact H. }
  rewrite (N.mod_small _ _ B).
  lia.
Qed.

Lemma hexval_hexdigit (d : N) : (d < 16)%N -> hexval (hexdigit d) = Some d.
Proof.
  intros H. unfold hexval, hexdigit.
  destruct (d <? 10)%N eqn:E.
  - apply N.ltb_lt in E.
    replace ((48 <=? 48 + d) && (48 + d <=? 57))%N with true
      by (symmetry; apply andb_true_iff; split; apply N.leb_le; lia).
    f_equal. lia.
  - apply N.ltb_ge in E.
    replace ((48 <=? 87 + d) && (87 + d <=? 57))%N with false
      by (symmetry; apply andb_false_iff; right; apply N.leb_gt; lia).
    replace ((97 <=? 87 + d) && (87 + d <=? 102))%N with true
      by (symmetry; apply andb_true_iff; split; apply N.leb_le; lia).
    f_equal. lia.
Qed.

Lemma decode_hex4_hex4 (n : N) (rest : str) :
  (n < 65536)%N -> decode_hex4 (hex4 n ++ rest) = Some (n, rest).
Proof.
  intros H. unfold hex4, decode_hex4. cbn [app].
  rewrite !hexval_hexdigit by (apply N.mod_lt; discriminate).
  now rewrite hex_value.
Qed.

Lemma lor_shifted (a b k : N) :
  (b < 2 ^ k)%N -> N.lor (a * 2 ^ k) b = (a * 2 ^ k + b)%N.
Proof.
  intros H.
  assert (D : N.land (a * 2 ^ k) b = 0%N).
  { rewrite <- (N.mod_small b (2 ^ k)) by exact H.
    rewrite <- N.land_ones, (N.land_comm b), N.land_assoc, N.land_ones.
    rewrite N.Div0.mod_mul. reflexivity. }
  now rewrite <- N.lxor_lor, <- N.add_nocarry_lxor.
Qed.

Lemma high_unit (c : N) : (65536 <= c < 1114112)%N ->
  N.lor 55296 (N.land (N.shiftr (c - 65536) 10) 1023) =
  (55296 + (c - 65536) / 1024)%N.
Proof.
  intros H. change 1023%N with (N.ones 10).
  rewrite N.land_ones, N.shiftr_div_pow2. change (2 ^ 10)%N with 1024%N.
  assert (B : ((c - 65536) / 1024 < 1024)%N)
    by (apply N.Div0.div_lt_upper_bound; lia).
  rewrite (N.mod_small _ _ B).
  change 55296%N with (54 * 2 ^ 10)%N. apply lor_shifted. exact B.
Qed.

Lemma low_unit (c : N) :
  N.lor 56320 (N.land (c - 65536) 1023) = (56320 + (c - 65536) mod 1024)%N.
Proof.
  change 1023%N with (N.ones 10). rewrite N.land_ones.
  change (2 ^ 10)%N with 1024%N.
  change 56320%N with (55 * 2 ^ 10)%N. apply lor_shifted.
  apply N.mod_lt. discriminate.
Qed.

Lemma join_units (x y : N) : (x < 1024)%N -> (y < 1024)%N ->
  join_surrogates (55296 + x) (56320 + y) = (x * 1024 + y + 65536)%N.
Proof.
  intros Hx Hy. unfold join_surrogates. change 1023%N with (N.ones 10).
  rewrite !N.land_ones, N.shiftl_mul_pow2. change (2 ^ 10)%N with 1024%N.
  replace (55296 + x)%N with (x + 54 * 1024)%N by lia.
  replace (56320 + y)%N with (y + 55 * 1024)%N by lia.
  rewrite !N.Div0.mod_add, !N.mod_small by assumption.
  f_equal. apply (@lor_shifted x y 10). exact Hy.
Qed.

Lemma join_surrogates_pair (c : N) : (65536 <= c < 1114112)%N ->
  join_surrogates (N.lor 55296 (N.land (N.shiftr (c - 65536) 10) 1023))
    (N.lor 56320 (N.land (c - 65536) 1023)) = c.
Proof.
  intros H. rewrite high_unit, low_unit by exact H.
  rewrite join_units.
  - pose proof (N.div_mod (c - 65536) 1024 ltac:(discriminate)). lia.
  - apply N.Div0.div_lt_upper_bound; lia.
  - apply N.mod_lt. discriminate.
Qed.

Lemma is_low_high_unit (x : N) : (x < 1024)%N ->
  is_high_surrogate (55296 + x) = true /\ is_low_surrogate (55296 + x) = false.
Proof.
  intros H. unfold is_high_surrogate, is_low_surrogate. split.
  - apply andb_true_iff; split; apply N.leb_le; lia.
  - apply andb_false_iff; left; apply N.leb_gt; lia.
Qed.

Lemma is_low_low_unit (y : N) : (y < 1024)%N ->
  is_low_surrogate (56320 + y) = true.
Proof.
  intros H. unfold is_low_surrogate.
  apply andb_true_iff; split; apply N.leb_le; lia.
Qed.

Ltac eqb_subst :=
  match goal with
  | H : (_ =? _)%N = true |- _ => apply N.eqb_eq in H; subst
  end.

Lemma follow_ok_escape (d : char) (Y : str) :
  (d < 1114112)%N -> is_low_surrogate d = false ->
  follow_ok (escape_char d ++ Y).
Proof.
  intros Hd Hl a b rest2 E Ha Hb. subst a b. unfold escape_char in E.
  cbv zeta in E.
  destruct (d =? quote)%N eqn:E1; [discriminate E|].
  destruct (d =? backslash)%N eqn:E2; [discriminate E|].
  destruct (d =? 8)%N eqn:E3; [discriminate E|].
  destruct (d =? 12)%N eqn:E4; [discriminate E|].
  destruct (d =? 10)%N eqn:E5; [discriminate E|].
  destruct (d =? 13)%N eqn:E6; [discriminate E|].
  destruct (d =? 9)%N eqn:E7; [discriminate E|].
  destruct ((32 <=? d) && (d <=? 126))%N eqn:E8.
  { injection E as E _. apply N.eqb_neq in E2. congruence. }
  destruct (d <? 65536)%N eqn:E9.
  - apply N.ltb_lt in E9. injection E as <-.
    exists d, Y. split; [now apply decode_hex4_hex4|assumption].
  - apply N.ltb_ge in E9. rewrite high_unit in E by lia.
    assert (B : ((d - 65536) / 1024 < 1024)%N)
      by (apply N.Div0.div_lt_upper_bound; lia).
    remember (55296 + (d - 65536) / 1024)%N as hi eqn:Ehi.
    remember (u_escape (N.lor 56320 (N.land (d - 65536) 1023))) as lo.
    unfold u_escape in E. cbn [app] in E. rewrite <- app_assoc in E.
    exists hi, (lo ++ Y). split.
    + injection E as <-. apply decode_hex4_hex4. lia.
    + subst hi. now apply is_low_high_unit.
Qed.

Lemma follow_ok_quote (rest : str) : follow_ok (quote :: rest).
Proof. intros a b rest2 E Ha. injection E as <- _. discriminate Ha. Qed.

Lemma unescape_u (c : N) (X : str) :
  (c < 65536)%N -> X <> [] ->
  (is_high_surrogate c = true -> follow_ok X) ->
  unescape (117%N :: hex4 c ++ X) = Some (c, X).
Proof.
  intros Hc HX HF. unfold unescape. rewrite N.eqb_refl.
  rewrite decode_hex4_hex4 by exact Hc.
  destruct X as [|a rest1]; [contradiction|].
  destruct (is_high_surrogate c) eqn:Hh; [|reflexivity].
  destruct (6 <? length (a :: rest1)); [|reflexivity].
  destruct (a =? backslash)%N eqn:Ea; [|reflexivity]. cbn [andb].
  destruct rest1 as [|b rest2]; [reflexivity|].
  destruct (b =? 117)%N eqn:Eb; [|reflexivity].
  apply N.eqb_eq in Ea, Eb.
  destruct (HF eq_refl a b rest2 eq_refl Ea Eb) as (c2 & rest3 & -> & ->).
  reflexivity.
Qed.

Lemma unescape_pair (c : N) (X : str) :
  (65536 <= c < 1114112)%N -> X <> [] ->
  unescape
    (117%N :: hex4 (N.lor 55296 (N.land (N.shiftr (c - 65536) 10) 1023))
     ++ u_escape (N.lor 56320 (N.land (c - 65536) 1023)) ++ X) = Some (c, X).
Proof.
  intros Hc HX. unfold unescape. rewrite N.eqb_refl.
  pose proof (join_surrogates_pair Hc) as J.
  rewrite high_unit, low_unit in * by exact Hc.
  assert (B : ((c - 65536) / 1024 < 1024)%N)
    by (apply N.Div0.div_lt_upper_bound; lia).
  assert (B' : ((c - 65536) mod 1024 < 1024)%N)
    by (apply N.mod_lt; discriminate).
  rewrite decode_hex4_hex4 by lia.
  unfold u_escape. cbn [app].
  rewrite (proj1 (is_low_high_unit B)).
  replace (6 <? _) with true.
  2:{ symmetry. apply Nat.ltb_lt. cbn [length]. rewrite length_app.
      destruct X; [contradiction|]. cbn [hex4 length]. lia. }
  rewrite !N.eqb_refl. cbn [andb].
  rewrite decode_hex4_hex4 by lia.
  rewrite (is_low_low_unit B'). now rewrite J.
Qed.

Lemma scanstring_step (c : char) (t X rest : str) (f : nat) :
  (c < 1114112)%N ->
  (is_high_surrogate c = true -> follow_ok X) ->
  X <> [] ->
  scanstring f X = Some (t, rest) ->
  scanstring (S f) (escape_char c ++ X) = Some (c :: t, rest).
Proof.
  intros Hc HF HX IH. unfold escape_char. cbv zeta.
  destruct (c =? quote)%N eqn:E1.
  { eqb_subst. cbn. now rewrite IH. }
  destruct (c =? backslash)%N eqn:E2.
  { eqb_subst. cbn. now rewrite IH. }
  destruct (c =? 8)%N eqn:E3.
  { eqb_subst. cbn. now rewrite IH. }
  destruct (c =? 12)%N eqn:E4.
  { eqb_subst. cbn. now rewrite IH. }
  destruct (c =? 10)%N eqn:E5.
  { eqb_subst. cbn. now rewrite IH. }
  destruct (c =? 13)%N eqn:E6.
  { eqb_subst. cbn. now rewrite IH. }
  destruct (c =? 9)%N eqn:E7.
  { eqb_subst. cbn. now rewrite IH. }
  destruct ((32 <=? c) && (c <=? 126))%N eqn:E8.
  { apply andb_true_iff in E8 as [L _]. apply N.leb_le in L.
    cbn [app scanstring]. rewrite E1, E2.
    replace (c <=? 31)%N with false by (symmetry; apply N.leb_gt; lia).
    now rewrite IH. }
  destruct (c <? 65536)%N eqn:E9.
  - apply N.ltb_lt in E9. unfold u_escape. cbn [app scanstring].
    change (backslash =? quote)%N with false.
    change (backslash =? backslash)%N with true. cbv iota.
    rewrite unescape_u by assumption. now rewrite IH.
  - apply N.ltb_ge in E9. unfold u_escape at 1. cbn [app scanstring].
    change (backslash =? quote)%N with false.
    change (backslash =? backslash)%N with true. cbv iota.
    rewrite <- app_assoc, unescape_pair by (try lia; assumption).
    now rewrite IH.
Qed.

Lemma scanstring_encoded (s rest : str) (fuel : nat) :
  valid_str s = true -> length s < fuel ->
  scanstring fuel (flat_map escape_char s ++ quote :: rest) = Some (s, rest).
Proof.
  revert fuel; induction s as [|c t IH]; intros fuel V F.
  - destruct fuel; [inversion F|]. reflexivity.
  - destruct fuel as [|f]; [inversion F|].
    cbn [valid_str] in V. apply andb_true_iff in V as [V Vt].
    apply andb_true_iff in V as [Vc Vp]. apply N.ltb_lt in Vc.
    cbn [flat_map]. rewrite <- app_assoc.
    apply scanstring_step.
    + exact Vc.
    + intros Hh. rewrite Hh in Vp. cbn [andb] in Vp.
      destruct t as [|d t'].
      * apply follow_ok_quote.
      * cbn [flat_map]. rewrite <- app_assoc.
        cbn [valid_str] in Vt. apply andb_true_iff in Vt as [Vd _].
        apply andb_true_iff in Vd as [Vd _]. apply N.ltb_lt in Vd.
        apply follow_ok_escape; [exact Vd|].
        now apply negb_true_iff in Vp.
    + destruct (flat_map escape_char t); discriminate.
    + apply IH; [exact Vt|]. cbn [length] in F. lia.
Qed.

Lemma uint_digits (d : Decimal.uint) :
  Forall (fun c => is_digit c = true) (lit (NilEmpty.string_of_uint d)).
Proof. induction d; simpl; constructor; try assumption; reflexivity. Qed.

Lemma span_digits_app (ds rest : str) :
  Forall (fun c => is_digit c = true) ds ->
  match rest with c :: _ => is_digit c | [] => false end = false ->
  span_digits (ds ++ rest) = (ds, rest).
Proof.
  intros H R. induction H as [|c ds Hc _ IH]; cbn [app span_digits].
  - destruct rest as [|c t]; [reflexivity|]. cbn [span_digits]. now rewrite R.
  - now rewrite Hc, IH.
Qed.

Ltac head_digit :=
  match goal with
  | |- context [lit (String ?a ?s)] =>
      let v := eval vm_compute in (N_of_ascii a) in
      change (lit (String a s)) with (v :: lit s)
  end.

Lemma value_acc (d : Decimal.uint) (acc : positive) :
  fold_left value_step (lit (NilEmpty.string_of_uint d)) (N.pos acc) =
  N.pos (Pos.of_uint_acc d acc).
Proof.
  revert acc; induction d; intros acc; cbn [NilEmpty.string_of_uint Pos.of_uint_acc];
    [reflexivity| ..];
    head_digit; cbn [fold_left]; rewrite <- IHd; f_equal; unfold value_step; lia.
Qed.

Lemma value_uint (d : Decimal.uint) :
  fold_left value_step (lit (NilEmpty.string_of_uint d)) 0%N = Pos.of_uint d.
Proof.
  induction d; cbn [NilEmpty.string_of_uint Pos.of_uint];
    [reflexivity| ..];
    head_digit; cbn [fold_left];
    first [ rewrite <- IHd; reflexivity
          | rewrite <- value_acc; reflexivity ].
Qed.

Lemma to_uint_head (p : positive) :
  exists c ds,
    lit (NilEmpty.string_of_uint (Pos.to_uint p)) = c :: ds /\
    (49 <=? c)%N && (c <=? 57)%N = true /\
    Forall (fun c => is_digit c = true) ds.
Proof.
  assert (U : Decimal.unorm (Pos.to_uint p) = Pos.to_uint p).
  { rewrite <- DecimalPos.Unsigned.to_of, DecimalPos.Unsigned.of_to.
    reflexivity. }
  pose proof (DecimalPos.Unsigned.to_uint_nonzero p) as NZ.
  pose proof (uint_digits (Pos.to_uint p)) as D.
  unfold Decimal.unorm in U.
  pose proof (nzhead_nonzero (Pos.to_uint p)) as NH.
  destruct (Decimal.nzhead (Pos.to_uint p)) eqn:E;
    try (rewrite <- U in D |- *; cbn [NilEmpty.string_of_uint] in D |- *;
         head_digit; eexists; eexists;
         split; [reflexivity|split; [reflexivity|]];
         apply uint_digits).
  - exfalso. apply NZ. now rewrite <- U.
  - exfalso. eapply NH. reflexivity.
Qed.

Lemma nilzero_to_uint (p : positive) :
  NilZero.string_of_uint (Pos.to_uint p) =
  NilEmpty.string_of_uint (Pos.to_uint p).
Proof.
  unfold NilZero.string_of_uint.
  pose proof (DecimalPos.Unsigned.to_uint_nonnil p) as NN.
  now destruct (Pos.to_uint p).
Qed.

Lemma match_number_of_Z (z : Z) (rest : str) :
  number_end rest = true ->
  match_number (of_Z z ++ rest) = Some (JInt z, rest).
Proof.
  intros E. unfold number_end in E. apply andb_true_iff in E as [E1 E2].
  apply negb_true_iff in E1, E2.
  assert (P : forall p,
    match_number (lit (NilEmpty.string_of_uint (Pos.to_uint p)) ++ rest) =
    Some (JInt (Z.pos p), rest) /\
    match_number (45%N :: lit (NilEmpty.string_of_uint (Pos.to_uint p)) ++ rest) =
    Some (JInt (Z.neg p), rest)).
  { intros p. destruct (to_uint_head p) as (c & ds & Es & Hc & Hds).
    pose proof (value_uint (Pos.to_uint p)) as V.
    rewrite DecimalPos.Unsigned.of_to, Es in V.
    assert (Hd : is_digit c = true).
    { unfold is_digit. apply andb_true_iff in Hc as [H1 H2].
      apply N.leb_le in H1. rewrite H2, andb_true_r. apply N.leb_le. lia. }
    assert (N45 : (c =? 45)%N = false).
    { apply andb_true_iff in Hc as [H1 _]. apply N.leb_le in H1.
      apply N.eqb_neq. lia. }
    rewrite Es. unfold match_number. cbn [app]. rewrite N45, N.eqb_refl.
    rewrite Hc, span_digits_app, Hd, E2 by assumption.
    unfold digits_value. fold value_step. rewrite V. split; reflexivity. }
  unfold of_Z. destruct z as [|p|p]; cbn [Z.to_int NilZero.string_of_int].
  - change (lit (NilZero.string_of_uint (Decimal.D0 Decimal.Nil))) with [48%N].
    unfold match_number. cbn [app]. cbn. now rewrite E2.
  - rewrite nilzero_to_uint. apply P.
  - change (lit (String "-" ?s)) with (45%N :: lit s).
    rewrite nilzero_to_uint. apply P.
Qed.

Lemma escape_char_nonempty (c : char) : escape_char c <> [].
Proof.
  unfold escape_char. cbv zeta.
  repeat match goal with |- context [if ?b then _ else _] => destruct b end;
    discriminate.
Qed.

Lemma length_escaped (s : str) : length s <= length (flat_map escape_char s).
Proof.
  induction s as [|c s IH]; cbn [flat_map length]; [lia|].
  rewrite length_app. pose proof (escape_char_nonempty c).
  destruct (escape_char c); [contradiction|]. cbn [length]. lia.
Qed.

Lemma scanstring_basestring (s rest : str) :
  valid_str s = true ->
  scanstring (length (flat_map escape_char s ++ quote :: rest))
    (flat_map escape_char s ++ quote :: rest) = Some (s, rest).
Proof.
  intros V. apply scanstring_encoded; [exact V|].
  rewrite length_app. cbn [length]. pose proof (length_escaped s). lia.
Qed.

Lemma of_Z_head (z : Z) :
  exists c t, of_Z z = c :: t /\ ((c =? 45)%N || is_digit c = true).
Proof.
  unfold of_Z. destruct z as [|p|p]; cbn [Z.to_int NilZero.string_of_int].
  - exists 48%N, []. split; reflexivity.
  - destruct (to_uint_head p) as (c & ds & Es & Hc & _).
    rewrite nilzero_to_uint.
    exists c, ds. split.
    + exact Es.
    + apply orb_true_iff. right. unfold is_digit.
      apply andb_true_iff in Hc as [H1 H2]. apply N.leb_le in H1.
      rewrite H2, andb_true_r. apply N.leb_le. lia.
  - exists 45%N. eexists. split; [|reflexivity].
    change (lit (String "-" ?s)) with (45%N :: lit s). reflexivity.
Qed.

Lemma scan_once_number (c : char) (t : str) (f : nat) :
  (c =? 45)%N || is_digit c = true ->
  scan_once (S f) (c :: t) = match_number (c :: t).
Proof.
  intros H. cbn [scan_once].
  assert (R : (c = 45 \/ 48 <= c <= 57)%N).
  { apply orb_true_iff in H as [H|H]; [left; now apply N.eqb_eq|right].
    unfold is_digit in H. apply andb_true_iff in H as [H1 H2].
    apply N.leb_le in H1, H2. lia. }
  replace (c =? quote)%N with false
    by (symmetry; apply N.eqb_neq; unfold quote; lia).
  replace (c =? 123)%N with false by (symmetry; apply N.eqb_neq; lia).
  replace (c =? 91)%N with false by (symmetry; apply N.eqb_neq; lia).
  replace (c =? 110)%N with false by (symmetry; apply N.eqb_neq; lia).
  replace (c =? 116)%N with false by (symmetry; apply N.eqb_neq; lia).
  replace (c =? 102)%N with false by (symmetry; apply N.eqb_neq; lia).
  reflexivity.
Qed.

Lemma scan_once_scalar (indent : option nat) (level : nat) (v : json)
  (rest : str) (f : nat) :
  scalar v = true -> number_end rest = true ->
  scan_once (S f) (encode indent level v ++ rest) = Some (v, rest).
Proof.
  intros Hv Hr. destruct v as [|b|z|s|l|d]; try discriminate Hv.
  - reflexivity.
  - destruct b; reflexivity.
  - cbn [encode]. destruct (of_Z_head z) as (c & t & E & Hc).
    pose proof (match_number_of_Z z rest Hr) as M. rewrite E in M |- *.
    cbn [app] in M |- *. now rewrite scan_once_number.
  - cbn [encode]. unfold py_encode_basestring_ascii. cbn [app scan_once].
    rewrite N.eqb_refl. rewrite <- app_assoc. cbn [app].
    now rewrite scanstring_basestring.
Qed.

Lemma skip_whitespace_scalar (indent : option nat) (level : nat) (v : json)
  (rest : str) :
  scalar v = true ->
  skip_whitespace (encode indent level v ++ rest) = encode indent level v ++ rest.
Proof.
  intros Hv. destruct v as [|b|z|s|l|d]; try discriminate Hv.
  - reflexivity.
  - destruct b; reflexivity.
  - cbn [encode]. destruct (of_Z_head z) as (c & t & -> & Hc).
    cbn [app skip_whitespace].
    replace (is_whitespace c) with false; [reflexivity|].
    symmetry. unfold is_whitespace.
    assert (R : (c = 45 \/ 48 <= c <= 57)%N).
    { apply orb_true_iff in Hc as [H|H]; [left; now apply N.eqb_eq|right].
      unfold is_digit in H. apply andb_true_iff in H as [H1 H2].
      apply N.leb_le in H1, H2. lia. }
    repeat (apply orb_false_iff; split); apply N.eqb_neq; lia.
  - reflexivity.
Qed.

Lemma skip_whitespace_indent (k level : nat) (x : str) :
  skip_whitespace (newline_indent (Some k) level ++ x) = skip_whitespace x.
Proof.
  cbn [newline_indent app skip_whitespace].
  change (is_whitespace newline) with true. cbv iota.
  induction (k * level) as [|n IH]; [reflexivity|]. exact IH.
Qed.

Lemma encode_dict (k level : nat) (kv : str * json) (d : list (str * json)) :
  encode (Some k) level (JDict (kv :: d)) =
  123%N :: newline_indent (Some k) (S level)
  ++ join (comma_indent k (S level)) (map (item k (S level)) (kv :: d))
  ++ newline_indent (Some k) level ++ [125%N].
Proof. reflexivity. Qed.

Lemma encode_list (k level : nat) (v : json) (l : list json) :
  encode (Some k) level (JList (v :: l)) =
  91%N :: newline_indent (Some k) (S level)
  ++ join (comma_indent k (S level)) (map (encode (Some k) (S level)) (v :: l))
  ++ newline_indent (Some k) level ++ [93%N].
Proof. reflexivity. Qed.

Lemma join_cons2 (sep x y : str) (l : list str) :
  join sep (x :: y :: l) = x ++ sep ++ join sep (y :: l).
Proof. reflexivity. Qed.

Lemma number_end_newline_indent (k level : nat) (x : str) :
  number_end (newline_indent (Some k) level ++ x) = true.
Proof. reflexivity. Qed.

Lemma number_end_comma_indent (k level : nat) (x : str) :
  number_end (comma_indent k level ++ x) = true.
Proof. reflexivity. Qed.

Lemma object_loop_item (k level : nat) (key : str) (v : json) (tail : str)
  (f : nat) (acc : Dict.dict json) :
  valid_str key = true -> scalar v = true -> number_end tail = true ->
  0 < f ->
  object_loop (S f) (item k level (key, v) ++ tail) acc =
  match skip_whitespace tail with
  | c4 :: rest4 =>
      if (c4 =? 125)%N then Some (JDict (Dict.set key v acc), rest4)
      else if (c4 =? 44)%N then
        object_loop f (skip_whitespace rest4) (Dict.set key v acc)
      else None
  | [] => None
  end.
Proof.
  intros Hk Hv Ht Hf. unfold item, py_encode_basestring_ascii. cbn [fst snd].
  rewrite <- !app_assoc. cbn [app object_loop].
  rewrite N.eqb_refl.
  rewrite <- app_assoc. cbn [app].
  rewrite scanstring_basestring by exact Hk.
  change (key_separator ++ ?x) with (58%N :: 32%N :: x).
  change (skip_whitespace (58%N :: 32%N :: ?x)) with (58%N :: 32%N :: x).
  cbv iota. change (58 =? 58)%N with true. cbv iota.
  change (skip_whitespace (32%N :: ?x)) with (skip_whitespace x).
  rewrite skip_whitespace_scalar by exact Hv.
  destruct f as [|f']; [inversion Hf|].
  now rewrite scan_once_scalar.
Qed.

Lemma skip_whitespace_items (k level : nat) (kv : str * json)
  (d : list (str * json)) (x : str) :
  skip_whitespace (join (comma_indent k level) (map (item k level) (kv :: d)) ++ x)
  = join (comma_indent k level) (map (item k level) (kv :: d)) ++ x.
Proof. destruct d; reflexivity. Qed.

Lemma object_loop_items (k level : nat) (d : list (str * json))
  (acc : Dict.dict json) (fuel : nat) (rest : str) :
  d <> [] -> Forall good_item d -> length d < fuel ->
  object_loop fuel
    (join (comma_indent k (S level)) (map (item k (S level)) d)
     ++ newline_indent (Some k) level ++ 125%N :: rest) acc =
  Some (JDict (fold_left set_item d acc), rest).
Proof.
  intros Hne Hg. revert acc fuel.
  induction Hg as [|[key v] d [Hk Hv] Hg IH]; [contradiction|].
  intros acc fuel F. cbn [length] in F.
  destruct fuel as [|f]; [lia|].
  destruct d as [|kv' d'].
  - cbn [map join].
    rewrite object_loop_item; try assumption; try reflexivity; try lia.
    rewrite skip_whitespace_indent.
    change (skip_whitespace (125%N :: rest)) with (125%N :: rest).
    cbv iota. rewrite N.eqb_refl. reflexivity.
  - cbn [map]. rewrite join_cons2, <- !app_assoc.
    rewrite object_loop_item; try assumption; try reflexivity;
      [|cbn [length] in F; lia].
    unfold comma_indent at 1. rewrite <- app_assoc.
    change (lit "," ++ ?x) with (44%N :: x).
    change (skip_whitespace (44%N :: ?x)) with (44%N :: x).
    cbv iota.
    change (44 =? 125)%N with false. change (44 =? 44)%N with true. cbv iota.
    rewrite skip_whitespace_indent.
    change (item k (S level) kv' :: map (item k (S level)) d')
      with (map (item k (S level)) (kv' :: d')).
    rewrite skip_whitespace_items.
    rewrite IH; [reflexivity|discriminate|cbn [length] in *; lia].
Qed.

Lemma scan_once_dict (k level : nat) (d : list (str * json)) (rest : str)
  (f : nat) :
  d <> [] -> Forall good_item d -> length d < f ->
  scan_once (S f) (encode (Some k) level (JDict d) ++ rest) =
  Some (JDict (fold_left set_item d []), rest).
Proof.
  intros Hne Hg F. destruct d as [|kv d]; [contradiction|].
  rewrite encode_dict. cbn [app scan_once].
  change (123 =? quote)%N with false. change (123 =? 123)%N with true.
  cbv iota. rewrite <- !app_assoc. rewrite skip_whitespace_indent.
  rewrite skip_whitespace_items.
  cbn [app].
  match goal with
  | |- match ?X with _ => _ end = _ =>
      assert (O : object_loop f X [] =
                  Some (JDict (fold_left set_item (kv :: d) []), rest))
        by (apply object_loop_items; assumption);
      assert (E : exists r, X = quote :: r)
        by (destruct d; eexists; reflexivity);
      destruct E as [r E]; rewrite E in O |- *
  end.
  change (quote =? 125)%N with false. exact O.
Qed.

Lemma array_loop_elem (f : nat) (s tail : str) (v : json) (acc : list json) :
  scan_once f s = Some (v, tail) ->
  array_loop (S f) s acc =
  match skip_whitespace tail with
  | c :: rest' =>
      if (c =? 93)%N then Some (JList (acc ++ [v]), rest')
      else if (c =? 44)%N then
        array_loop f (skip_whitespace rest') (acc ++ [v])
      else None
  | [] => None
  end.
Proof. intros H. cbn [array_loop]. now rewrite H. Qed.

Lemma skip_whitespace_dict (k level : nat) (d : list (str * json)) (x : str) :
  d <> [] ->
  skip_whitespace (encode (Some k) level (JDict d) ++ x) =
  encode (Some k) level (JDict d) ++ x.
Proof. destruct d; [contradiction|]. reflexivity. Qed.

Lemma skip_whitespace_dicts (k level : nat) (d : list (str * json))
  (ds : list (list (str * json))) (x : str) :
  d <> [] ->
  skip_whitespace
    (join (comma_indent k level)
       (map (fun d => encode (Some k) level (JDict d)) (d :: ds)) ++ x) =
  join (comma_indent k level)
    (map (fun d => encode (Some k) level (JDict d)) (d :: ds)) ++ x.
Proof.
  intros H. destruct ds as [|d' ds]; cbn [map].
  - cbn [join]. now apply skip_whitespace_dict.
  - rewrite join_cons2, <- app_assoc. now apply skip_whitespace_dict.
Qed.

Lemma array_loop_dicts (k level M : nat) (ds : list (list (str * json)))
  (acc : list json) (fuel : nat) (rest : str) :
  ds <> [] -> Forall (good_dict M) ds -> length ds + M + 2 <= fuel ->
  array_loop fuel
    (join (comma_indent k (S level))
       (map (fun d => encode (Some k) (S level) (JDict d)) ds)
     ++ newline_indent (Some k) level ++ 93%N :: rest) acc =
  Some (JList (acc ++ map normal ds), rest).
Proof.
  intros Hne Hg. revert acc fuel.
  induction Hg as [|d ds (Hd & Hi & Hl) Hg IH]; [contradiction|].
  intros acc fuel F. cbn [length] in F.
  destruct fuel as [|[|f]]; try lia.
  destruct ds as [|d' ds'].
  - cbn [map join].
    rewrite (@array_loop_elem _ _ (newline_indent (Some k) level ++ 93%N :: rest)
               (normal d)).
    + rewrite skip_whitespace_indent.
      change (skip_whitespace (93%N :: rest)) with (93%N :: rest).
      cbv iota. rewrite N.eqb_refl. reflexivity.
    + apply scan_once_dict; try assumption. cbn [length] in F. lia.
  - cbn [map]. rewrite join_cons2, <- !app_assoc.
    rewrite (@array_loop_elem _ _
               (comma_indent k (S level)
                ++ join (comma_indent k (S level))
                     (map (fun d => encode (Some k) (S level) (JDict d))
                        (d' :: ds'))
                ++ newline_indent (Some k) level ++ 93%N :: rest)
               (normal d)).
    + unfold comma_indent at 1. rewrite <- app_assoc.
      change (lit "," ++ ?x) with (44%N :: x).
      change (skip_whitespace (44%N :: ?x)) with (44%N :: x).
      cbv iota.
      change (44 =? 93)%N with false. change (44 =? 44)%N with true. cbv iota.
      rewrite skip_whitespace_indent.
      inversion Hg as [|? ? (Hd' & _) _]; subst.
      rewrite skip_whitespace_dicts by assumption.
      rewrite IH; [|discriminate|cbn [length] in *; lia].
      now rewrite <- app_assoc.
    + apply scan_once_dict; try assumption. cbn [length] in F. lia.
Qed.

Lemma length_join (sep : str) (parts : list str) :
  list_sum (map (@length char) parts) <= length (join sep parts).
Proof.
  induction parts as [|p parts IH]; [cbn; lia|].
  destruct parts as [|q parts].
  - cbn. lia.
  - rewrite join_cons2, !length_app.
    change (list_sum (map ?f (p :: ?l))) with (f p + list_sum (map f l)).
    lia.
Qed.

Lemma list_sum_ge (A : Type) (f : A -> nat) (l : list A) :
  (forall x, 1 <= f x) -> length l <= list_sum (map f l).
Proof.
  intros H. induction l as [|x l IH]; simpl; [lia|].
  specialize (H x). lia.
Qed.

Lemma length_item (k level : nat) (kv : str * json) :
  1 <= length (item k level kv).
Proof. unfold item, py_encode_basestring_ascii. cbn [app length]. lia. Qed.

Lemma length_encode_dict (k level : nat) (d : list (str * json)) :
  d <> [] -> length d + 4 <= length (encode (Some k) level (JDict d)).
Proof.
  intros H. destruct d as [|kv d]; [contradiction|].
  rewrite encode_dict. cbn [length newline_indent app].
  rewrite !length_app. cbn [length].
  pose proof (length_join (comma_indent k (S level))
                (map (item k (S level)) (kv :: d))) as J.
  rewrite map_map in J.
  pose proof (@list_sum_ge _ (fun x => length (item k (S level) x)) (kv :: d)
                (length_item k (S level))) as Hs.
  cbn [length] in Hs. rewrite !length_app. cbn [length]. lia.
Qed.

Lemma length_encode_dicts (k M : nat) (ds : list (list (str * json))) :
  ds <> [] -> Forall (good_dict M) ds ->
  length ds + 4 <=
  length (join (comma_indent k 1)
            (map (fun d => encode (Some k) 1 (JDict d)) ds)).
Proof.
  intros Hne Hg.
  pose proof (length_join (comma_indent k 1)
                (map (fun d => encode (Some k) 1 (JDict d)) ds)) as J.
  rewrite map_map in J.
  assert (Hs : forall l, Forall (good_dict M) l ->
            5 * length l <=
            list_sum (map (fun d => length (encode (Some k) 1 (JDict d))) l)).
  { induction 1 as [|d l (Hd & _ & _) _ IH]; [simpl; lia|].
    pose proof (length_encode_dict k 1 Hd) as L.
    change (list_sum (map ?f (d :: l))) with (f d + list_sum (map f l)).
    destruct d; [contradiction|]. cbn [length] in *. lia. }
  specialize (Hs ds Hg). destruct ds; [contradiction|]. cbn [length] in *. lia.
Qed.

Lemma scan_once_dicts (k M : nat) (d : list (str * json))
  (ds : list (list (str * json))) (fuel : nat) (rest : str) :
  Forall (good_dict M) (d :: ds) -> length (d :: ds) + M + 2 <= fuel ->
  scan_once (S fuel) (encode (Some k) 0 (JList (map JDict (d :: ds))) ++ rest) =
  Some (JList (map normal (d :: ds)), rest).
Proof.
  intros Hg F. cbn [map]. rewrite encode_list.
  cbn [app scan_once].
  change (91 =? quote)%N with false. change (91 =? 123)%N with false.
  change (91 =? 91)%N with true. cbv iota.
  rewrite <- !app_assoc. rewrite skip_whitespace_indent.
  change (JDict d :: map JDict ds) with (map JDict (d :: ds)).
  rewrite map_map.
  assert (Hd : d <> []) by (inversion Hg as [|? ? (H & _) _]; exact H).
  rewrite skip_whitespace_dicts by exact Hd.
  change ([93%N] ++ rest) with (93%N :: rest).
  match goal with
  | |- match ?X with _ => _ end = _ =>
      assert (A : array_loop fuel X [] =
                  Some (JList ([] ++ map normal (d :: ds)), rest))
        by (apply array_loop_dicts with (M := M);
            [discriminate|assumption|assumption]);
      assert (E : exists r, X = 123%N :: r)
        by (destruct d as [|kv d]; [contradiction|];
            destruct ds; eexists; reflexivity);
      destruct E as [r E]; rewrite E in A |- *
  end.
  change (123 =? 93)%N with false. exact A.
Qed.

(** Reading back a list of small dictionaries of scalars written with an
    indentation: the length of the text is fuel enough. *)
Lemma loads_dumps_dicts (k M : nat) (ds : list (list (str * json))) :
  Forall (good_dict M) ds -> M <= 6 ->
  loads (dumps (Some k) (JList (map JDict ds))) = Some (JList (map normal ds)).
Proof.
  intros Hg HM. destruct ds as [|d ds]; [reflexivity|].
  unfold loads, dumps.
  assert (L : length (d :: ds) + M + 2 <=
              length (encode (Some k) 0 (JList (map JDict (d :: ds))))).
  { cbn [map]. rewrite encode_list. cbn [length]. rewrite !length_app.
    change (JDict d :: map JDict ds) with (map JDict (d :: ds)).
    rewrite map_map.
    pose proof (@length_encode_dicts k M (d :: ds) ltac:(discriminate) Hg).
    cbn [length newline_indent] in *. lia. }
  pose proof (@scan_once_dicts k M d ds _ [] Hg L) as Sc.
  rewrite app_nil_r in Sc.
  replace (skip_whitespace (encode (Some k) 0 (JList (map JDict (d :: ds)))))
    with (encode (Some k) 0 (JList (map JDict (d :: ds)))) by reflexivity.
  now rewrite Sc.
Qed.

End JsonRoundTrip.

(** ** The report and the whole run *)

Section ValidStrings.

Import Json.

Lemma valid_str_app_r (a b : str) :
  valid_str (a ++ b) = true -> valid_str b = true.
Proof.
  induction a as [|c a IH]; cbn [app valid_str]; [tauto|].
  intros H. apply andb_true_iff in H as [_ H]. now apply IH.
Qed.

Lemma valid_str_app_l (a b : str) :
  valid_str (a ++ b) = true -> valid_str a = true.
Proof.
  induction a as [|c a IH]; cbn [app valid_str]; [reflexivity|].
  intros H. apply andb_true_iff in H as [H Ht].
  apply andb_true_iff in H as [Hc Hp].
  rewrite Hc, (IH Ht), andb_true_r. cbn [andb].
  destruct a as [|d a]; [now rewrite andb_false_r|exact Hp].
Qed.

Lemma valid_str_lstrip (s : str) :
  valid_str s = true -> valid_str (lstrip s) = true.
Proof.
  destruct (lstrip_suffix s) as [ws E]. rewrite E at 1. apply valid_str_app_r.
Qed.

Lemma valid_str_rstrip (s : str) :
  valid_str s = true -> valid_str (rstrip s) = true.
Proof.
  destruct (rstrip_prefix s) as [ws E]. rewrite E at 1. apply valid_str_app_l.
Qed.

Lemma valid_str_strip (s : str) :
  valid_str s = true -> valid_str (strip s) = true.
Proof. intros H. unfold strip. now apply valid_str_rstrip, valid_str_lstrip. Qed.

Lemma split_nl_head (s l : str) (ls : list str) :
  split_nl s = l :: ls -> exists b, s = l ++ b.
Proof.
  revert l ls; induction s as [|c s IH]; intros l ls; cbn [split_nl].
  - intros [= <- <-]. now exists [].
  - destruct (c =? newline)%N.
    + intros [= <- <-]. now exists (c :: s).
    + destruct (split_nl s) as [|l0 ls0] eqn:E.
      * intros [= <- <-]. now destruct (split_nl_nonempty s).
      * intros [= <- <-]. destruct (IH _ _ eq_refl) as [b ->].
        now exists b.
Qed.

Lemma split_nl_line (s l : str) :
  In l (split_nl s) -> exists a b, s = a ++ l ++ b.
Proof.
  revert l; induction s as [|c s IH]; intros l; cbn [split_nl].
  - intros [<-|[]]. now exists [], [].
  - destruct (c =? newline)%N.
    + intros [<-|H]; [now exists [], (c :: s)|].
      destruct (IH _ H) as (a & b & ->). now exists (c :: a), b.
    + destruct (split_nl s) as [|l0 ls0] eqn:E.
      * intros [<-|[]]. now destruct (split_nl_nonempty s).
      * intros [<-|H].
        -- destruct (split_nl_head s E) as [b ->]. now exists [], b.
        -- destruct (IH l (or_intror H)) as (a & b & ->).
           now exists (c :: a), b.
Qed.

Lemma valid_str_line (s l : str) :
  In l (split_nl s) -> valid_str s = true -> valid_str l = true.
Proof.
  intros H V. destruct (split_nl_line s l H) as (a & b & ->).
  eapply valid_str_app_l, valid_str_app_r, V.
Qed.

Lemma valid_str_rows (chunks : list chunk) :
  Forall (fun ch => valid_str (content ch) = true) chunks ->
  Forall (fun r => valid_str (sourceData r) = true) (rows_from_chunks chunks).
Proof.
  intros H. apply Forall_forall. intros r Hr.
  rewrite rows_from_chunks_table in Hr.
  apply in_table in Hr as (ch & s & Hch & Hs & ->).
  apply in_names in Hs as (line & Hl & _ & ->).
  apply valid_str_strip, (valid_str_line _ _ Hl).
  rewrite Forall_forall in H. now apply H.
Qed.

Lemma valid_json_last_answer (r : row) (col : str) (cells : list cell)
  (dflt : json) :
  Forall (fun c => valid_json (answer c) = true) cells ->
  valid_json dflt = true ->
  valid_json (last_answer r col cells dflt) = true.
Proof.
  intros H. revert dflt. induction H as [|c cells Hc _ IH]; intros dflt Hd.
  - exact Hd.
  - rewrite last_answer_cons. apply IH.
    now destruct (Str.eqb (rowId c) (id r) && Str.eqb (columnId c) col).
Qed.

End ValidStrings.

Section Report.

Variable w : world.

Lemma result_line_printable (name line : str) (a b c : json) :
  result_line (result_of name a b c) = inr line ->
  printable a = true /\ printable b = true /\ printable c = true.
Proof.
  destruct a, b, c; try discriminate; intros _; repeat split.
Qed.

Lemma render_lines (results : list (Dict.dict json)) (lines : list str) :
  render results = (lines, None) ->
  Forall2 (fun result line => result_line result = inr line) results lines.
Proof.
  revert lines; induction results as [|res results IH]; intros lines;
    cbn [render].
  - intros [= <-]. constructor.
  - destruct (result_line res) as [e|line] eqn:E; [discriminate|].
    destruct (render results) as [ls err]. intros [= <- ->].
    constructor; [exact E|now apply IH].
Qed.

Lemma for_each_render (results : list (Dict.dict json)) (t : list event) :
  for_each results
    (fun result => line <- call (result_line result) ;; print line) t =
  (match snd (render results) with None => inr tt | Some e => inl e end,
   t ++ map Print (fst (render results))).
Proof.
  revert t; induction results as [|res results IH]; intros t;
    cbn [for_each render].
  - unfold ret. cbn. rewrite app_nil_r. reflexivity.
  - unfold bind at 1. unfold bind at 1. unfold call.
    destruct (result_line res) as [e|line].
    + cbn. now rewrite app_nil_r.
    + cbn [ret print emit]. rewrite IH.
      destruct (render results) as [ls err]. cbn [fst snd map].
      now rewrite <- app_assoc.
Qed.

Lemma report_run (results : list (Dict.dict json)) (t : list event) :
  report w results t =
  let t' := t ++ table_head ++ map Print (fst (render results)) in
  match snd (render results) with
  | Some e => (inl e, t')
  | None =>
      match open_w w results_path with
      | inl e => (inl e, t')
      | inr _ =>
          (inr tt,
           t' ++ [Write results_path
                    (Json.dumps (Some 2) (JList (map JDict results)));
                  Print saved_line])
      end
  end.
Proof.
  unfold report. unfold bind at 1 2 3 4 5. unfold print at 1 2 3 4, emit.
  rewrite for_each_render. cbv zeta.
  unfold table_head. rewrite <- !app_assoc. cbn [app].
  destruct (snd (render results)); [reflexivity|].
  unfold bind, call. destruct (open_w w results_path) as [e|[]];
    [reflexivity|].
  unfold print, emit. cbn [ret]. rewrite <- !app_assoc. reflexivity.
Qed.

Lemma upload_pdf_steps (pdf_path : str) (t t' : list event) (res : exn + str) :
  upload_pdf w pdf_path t = (res, t') ->
  (t' = t /\ exists e, res = inl e /\ open_rb w pdf_path = inl e) \/
  (t' = t ++ [Request (lit "POST") document_url] /\
   exists f, open_rb w pdf_path = inr f).
Proof.
  unfold upload_pdf, bind, call, emit. fold document_url.
  destruct (open_rb w pdf_path) as [e|f]; cbn [raise ret].
  { intros E; apply pair_equal_spec in E as [<- <-]. left.
    split; [reflexivity|now exists e]. }
  intros E. right. split; [|now exists f].
  destruct (post_document _ _ _ _ _) as [e|r]; cbn [raise ret] in E.
  { now apply pair_equal_spec in E as [_ <-]. }
  destruct (negb _); cbn [raise] in E.
  { now apply pair_equal_spec in E as [_ <-]. }
  destruct (resp_json r); cbn [raise ret] in E;
    now apply pair_equal_spec in E as [_ <-].
Qed.

Lemma create_table_rows_steps (document_id : str) (t t' : list event)
  (res : exn + list row) :
  create_table_rows w document_id t = (res, t') ->
  t' = t ++ [Request (lit "GET") (chunks_url document_id)] /\
  forall rows, res = inr rows ->
    exists r chunks,
      get_chunks w (chunks_url document_id) = inr r /\
      resp_json r = inr chunks /\ rows = rows_from_chunks chunks.
Proof.
  unfold create_table_rows, bind, call, emit. fold (chunks_url document_id).
  destruct (get_chunks w (chunks_url document_id)) as [e|r]; cbn [raise ret].
  { intros E; apply pair_equal_spec in E as [<- <-].
    split; [reflexivity|discriminate]. }
  destruct (negb _); cbn [raise].
  { intros E; apply pair_equal_spec in E as [<- <-].
    split; [reflexivity|discriminate]. }
  destruct (resp_json r) as [e|chunks] eqn:J; cbn [raise ret];
    intros E; apply pair_equal_spec in E as [<- <-];
    (split; [reflexivity|]).
  - discriminate.
  - intros rows [= <-]. now exists r, chunks.
Qed.

Lemma generate_table_cells_steps (columns : list column) (rows : list row)
  (t t' : list event) (res : exn + list cell) :
  generate_table_cells w columns rows t = (res, t') ->
  t' = t ++ [Request (lit "POST") generate_cells_url] /\
  forall cells, res = inr cells ->
    exists r,
      post_generate_cells w generate_cells_url columns rows = inr r /\
      resp_json r = inr cells.
Proof.
  unfold generate_table_cells, bind, call, emit. fold generate_cells_url.
  destruct (post_generate_cells _ _ _ _) as [e|r] eqn:P; cbn [raise ret].
  { intros E; apply pair_equal_spec in E as [<- <-].
    split; [reflexivity|discriminate]. }
  destruct (negb _); cbn [raise].
  { intros E; apply pair_equal_spec in E as [<- <-].
    split; [reflexivity|discriminate]. }
  destruct (resp_json r) as [e|cells] eqn:J; cbn [raise ret];
    intros E; apply pair_equal_spec in E as [<- <-];
    (split; [reflexivity|]).
  - discriminate.
  - intros cells' [= <-]. now exists r.
Qed.

End Report.

Section RoundTrip.

Import Json.

Variable w : world.
Variable pdf_path : str.

Lemma workflow_eq (t0 : list event) :
  workflow w pdf_path t0 =
  match upload_pdf w pdf_path t0 with
  | (inl e, t1) => (inl e, t1)
  | (inr document_id, t1) =>
      match create_table_rows w document_id
              (t1 ++ [Print (lit "Document uploaded successfully with ID: "
                             ++ document_id);
                      Print (lit "Table columns created")]) with
      | (inl e, t2) => (inl e, t2)
      | (inr rows, t2) =>
          match generate_table_cells w create_table_columns rows
                  (t2 ++ [Print (lit "Created " ++ of_nat (length rows)
                                 ++ lit " rows from document")]) with
          | (inl e, t3) => (inl e, t3)
          | (inr cells, t3) =>
              report w (aggregate rows cells)
                (t3 ++ [Print (lit "Generated " ++ of_nat (length cells)
                               ++ lit " cells")])
          end
      end
  end.
Proof.
  unfold workflow. unfold bind at 1.
  destruct (upload_pdf w pdf_path t0) as [[e|document_id] t1]; [reflexivity|].
  unfold bind at 1 2 3. unfold print at 1 2, emit.
  rewrite <- app_assoc. cbn [app].
  destruct (create_table_rows w document_id _) as [[e|rows] t2]; [reflexivity|].
  unfold bind at 1 2. unfold print at 1, emit.
  destruct (generate_table_cells w create_table_columns rows _)
    as [[e|cells] t3]; [reflexivity|].
  unfold bind at 1. unfold print at 1, emit. reflexivity.
Qed.

Lemma existsb_is_write_prints (t : list event) (lines : list str) :
  existsb is_write (t ++ map Print lines) = existsb is_write t.
Proof.
  rewrite existsb_app.
  replace (existsb is_write (map Print lines)) with false;
    [apply orb_false_r|].
  induction lines; [reflexivity|assumption].
Qed.

Lemma good_result (name : str) (a b c : json) :
  valid_str name = true ->
  valid_json a = true -> valid_json b = true -> valid_json c = true ->
  printable a = true -> printable b = true -> printable c = true ->
  good_dict 4 (result_of name a b c) /\
  normal (result_of name a b c) = JDict (result_of name a b c).
Proof.
  intros Hn Ha Hb Hc Pa Pb Pc.
  assert (S : forall v, valid_json v = true -> printable v = true ->
                        scalar v = true).
  { intros [| | | | |] V P; try discriminate P; try reflexivity. exact V. }
  split; [|reflexivity].
  split; [discriminate|]. split; [|cbn; lia].
  repeat constructor; cbn [fst snd scalar]; auto.
Qed.

Lemma filter_is_request_prints (t : list event) (lines : list str) :
  filter is_request (t ++ map Print lines) = filter is_request t.
Proof.
  rewrite filter_app.
  replace (filter is_request (map Print lines)) with (@nil event);
    [apply app_nil_r|].
  induction lines; [reflexivity|assumption].
Qed.

(** A run either raises, having written nothing and sent the first
    requests of a run only, or it goes through the three requests, prints
    the whole table and writes the results it printed. *)
Lemma workflow_run (res : exn + unit) (t : list event) :
  workflow w pdf_path [] = (res, t) ->
  (exists e n document_id,
     res = inl e /\ existsb is_write t = false /\
     filter is_request t = firstn n (the_requests document_id)) \/
  (exists document_id chunks cells lines r r',
     let rows := rows_from_chunks chunks in
     let results := aggregate rows cells in
     res = inr tt /\
     get_chunks w (chunks_url document_id) = inr r /\
     resp_json r = inr chunks /\
     post_generate_cells w generate_cells_url create_table_columns rows
       = inr r' /\
     resp_json r' = inr cells /\
     render results = (lines, None) /\
     t = preamble document_id rows cells ++ table_head ++ map Print lines
         ++ [Write results_path (dumps (Some 2) (JList (map JDict results)));
             Print saved_line]).
Proof.
  rewrite workflow_eq.
  destruct (upload_pdf w pdf_path []) as [[e|document_id] t1] eqn:U.
  { intros E; apply pair_equal_spec in E as [<- <-]. left.
    apply upload_pdf_steps in U as [[-> _]|[-> _]].
    - now exists e, 0, [].
    - now exists e, 1, []. }
  apply upload_pdf_steps in U as [[_ (e & E & _)]|[-> _]]; [discriminate E|].
  destruct (create_table_rows w document_id _) as [[e|rows] t2] eqn:C.
  { intros E; apply pair_equal_spec in E as [<- <-]. left.
    apply create_table_rows_steps in C as [-> _].
    now exists e, 2, document_id. }
  apply create_table_rows_steps in C as [-> C2].
  destruct (C2 rows eq_refl) as (r & chunks & Hg & Hj & ->).
  destruct (generate_table_cells w create_table_columns _ _)
    as [[e|cells] t3] eqn:G.
  { intros E; apply pair_equal_spec in E as [<- <-]. left.
    apply generate_table_cells_steps in G as [-> _].
    now exists e, 3, document_id. }
  apply generate_table_cells_steps in G as [-> G2].
  destruct (G2 cells eq_refl) as (r' & Hp & Hj').
  rewrite report_run. cbv zeta.
  destruct (render (aggregate (rows_from_chunks chunks) cells))
    as [lines [e|]] eqn:R; cbn [fst snd].
  { intros E; apply pair_equal_spec in E as [<- <-]. left.
    exists e, 3, document_id. split; [reflexivity|].
    rewrite app_assoc, existsb_is_write_prints, filter_is_request_prints.
    split; reflexivity. }
  destruct (open_w w results_path) as [e|[]].
  { intros E; apply pair_equal_spec in E as [<- <-]. left.
    exists e, 3, document_id. split; [reflexivity|].
    rewrite app_assoc, existsb_is_write_prints, filter_is_request_prints.
    split; reflexivity. }
  intros E; apply pair_equal_spec in E as [<- <-]. right.
  exists document_id, chunks, cells, lines, r, r'. cbv zeta.
  repeat (split; [first [reflexivity | assumption]|]).
  unfold preamble. cbn [app]. rewrite <- !app_assoc. reflexivity.
Qed.

Lemma in_write (path data : str) (t : list event) :
  In (Write path data) t -> existsb is_write t = true.
Proof.
  intros H. apply existsb_exists. now exists (Write path data).
Qed.

Lemma Forall2_in_l (A B : Type) (P : A -> B -> Prop) (l : list A)
  (l' : list B) (x : A) :
  Forall2 P l l' -> In x l -> exists y, P x y.
Proof.
  induction 1 as [|a b l l' Hab _ IH]; [intros []|].
  intros [<-|H]; [now exists b|now apply IH].
Qed.

Lemma results_good (chunks : list chunk) (cells : list cell)
  (lines : list str) :
  Forall (fun ch => valid_str (content ch) = true) chunks ->
  Forall (fun c => valid_json (answer c) = true) cells ->
  render (aggregate (rows_from_chunks chunks) cells) = (lines, None) ->
  Forall (good_dict 4) (aggregate (rows_from_chunks chunks) cells) /\
  map normal (aggregate (rows_from_chunks chunks) cells) =
  map JDict (aggregate (rows_from_chunks chunks) cells).
Proof.
  intros Hch Hce R. apply render_lines in R.
  pose proof (valid_str_rows Hch) as Hrows. rewrite Forall_forall in Hrows.
  assert (G : forall res,
             In res (aggregate (rows_from_chunks chunks) cells) ->
             good_dict 4 res /\ normal res = JDict res).
  { intros res Hin. destruct (Forall2_in_l _ R Hin) as [line Hl].
    rewrite aggregate_map in Hin.
    apply in_map_iff in Hin as (r & <- & Hr).
    apply result_line_printable in Hl as (Pa & Pb & Pc).
    apply good_result; try assumption;
      try (apply valid_json_last_answer; [assumption|reflexivity]).
    now apply Hrows. }
  split.
  - apply Forall_forall. intros res Hin. now apply G.
  - apply map_ext_in. intros res Hin. now apply G.
Qed.

End RoundTrip.

(** The only file a run writes is the results file, with the text of
    the results it printed. *)
Lemma written_file (w : world) (pdf_path path data : str) :
  In (Write path data) (process_pdf_and_classify_companies w pdf_path) ->
  exists document_id chunks cells lines r r',
    let rows := rows_from_chunks chunks in
    let results := aggregate rows cells in
    get_chunks w (chunks_url document_id) = inr r /\
    resp_json r = inr chunks /\
    post_generate_cells w generate_cells_url create_table_columns rows
      = inr r' /\
    resp_json r' = inr cells /\
    render results = (lines, None) /\
    process_pdf_and_classify_companies w pdf_path =
      preamble document_id rows cells ++ table_head ++ map Print lines
      ++ [Write results_path data; Print saved_line] /\
    path = results_path /\
    data = Json.dumps (Some 2) (JList (map JDict results)).
Proof.
  intros Hin. unfold process_pdf_and_classify_companies in *.
  destruct (workflow w pdf_path []) as [res t] eqn:Wf.
  destruct (@workflow_run w pdf_path res t Wf)
    as [(e & n & document_id & -> & Hw & _)
       |(document_id & chunks & cells & lines & r & r' & -> & Hg & Hj & Hp
         & Hj' & R & ->)].
  - apply in_write in Hin. rewrite existsb_app, Hw in Hin. discriminate Hin.
  - exists document_id, chunks, cells, lines, r, r'. cbv zeta.
    assert (E : path = results_path /\
                data = Json.dumps (Some 2)
                         (JList (map JDict
                            (aggregate (rows_from_chunks chunks) cells)))).
    { apply in_app_or in Hin as [Hin|Hin].
      { apply in_write in Hin. discriminate Hin. }
      apply in_app_or in Hin as [Hin|Hin].
      { apply in_write in Hin. discriminate Hin. }
      apply in_app_or in Hin as [Hin|Hin].
      { apply in_map_iff in Hin as (l & Hl & _). discriminate Hl. }
      destruct Hin as [Hin|[Hin|[]]]; [|discriminate Hin].
      apply (f_equal (fun e => match e with
                               | Write p d => (p, d)
                               | _ => (path, data)
                               end)) in Hin.
      apply pair_equal_spec in Hin as [<- <-]. now split. }
    destruct E as [-> ->].
    repeat (split; [first [reflexivity | assumption]|]). reflexivity.
Qed.

(** X1. Round-trip of the output file: when a run writes a file, it is
    [company_classification_results.json], written after the whole table
    has been printed; parsing its text as JSON gives the list of result
    dictionaries of the aggregation, and the lines of the table are the
    renderings of these dictionaries, one per dictionary and in the same
    order. The strings the service returned are taken as the JSON decoder
    builds them. *)
Theorem json_file_round_trip (w : world) (pdf_path path data : str) :
  json_strings w ->
  In (Write path data) (process_pdf_and_classify_companies w pdf_path) ->
  exists document_id chunks cells lines,
    let rows := rows_from_chunks chunks in
    let results := aggregate rows cells in
    process_pdf_and_classify_companies w pdf_path =
      preamble document_id rows cells ++ table_head ++ map Print lines
      ++ [Write results_path data; Print saved_line] /\
    path = results_path /\
    Json.loads data = Some (JList (map JDict results)) /\
    Forall2 (fun result line => result_line result = inr line) results lines.
Proof.
  intros [Hch Hce] Hin.
  destruct (written_file _ _ _ _ Hin)
    as (document_id & chunks & cells & lines & r & r' & Hg & Hj & Hp & Hj'
        & R & E & -> & ->).
  exists document_id, chunks, cells, lines. cbv zeta.
  pose proof (Hch _ _ _ Hg Hj) as Vch.
  pose proof (Hce _ _ _ _ _ Hp Hj') as Vce.
  destruct (@results_good _ _ _ Vch Vce R) as [G N].
  split; [exact E|]. split; [reflexivity|]. split.
  - rewrite loads_dumps_dicts with (M := 4); [|exact G|lia].
    now rewrite N.
  - now apply render_lines.
Qed.

(** ** Runs, as the service answers *)

Section Printing.

Lemma format_left_plain (width : nat) (v : json) :
  printable v = true -> format_left width v = inr (ljust width (plain v)).
Proof. destruct v as [|[]| | | |]; try discriminate; reflexivity. Qed.

Lemma result_line_table_line (name : str) (a b c : json) :
  printable a = true -> printable b = true -> printable c = true ->
  result_line (result_of name a b c) = inr (table_line name a b c).
Proof.
  intros Ha Hb Hc. unfold result_line, getitem. cbn [result_of Dict.get].
  repeat match goal with
         | |- context [Str.eqb (lit ?x) (lit ?y)] =>
             let v := eval vm_compute in (Str.eqb (lit x) (lit y)) in
             change (Str.eqb (lit x) (lit y)) with v
         end.
  cbv iota. cbn [and_then format_left].
  rewrite !format_left_plain by assumption. reflexivity.
Qed.



End Printing.

Section Runs.

Variable w : world.
Variable pdf_path : str.

Lemma workflow_served (document_id : str) (chunks : list chunk)
  (cells : list cell) :
  served w pdf_path document_id chunks cells ->
  workflow w pdf_path [] =
  report w (aggregate (rows_from_chunks chunks) cells)
    (preamble document_id (rows_from_chunks chunks) cells).
Proof.
  intros (r & r' & r'' & Hu & Hs & Hj & Hg & Hs' & Hj' & Hp & Hs'' & Hj'').
  rewrite workflow_eq.
  rewrite (upload_pdf_run _ Hu), Hs, Hj. cbn [Z.eqb Pos.eqb].
  rewrite (create_table_rows_run w document_id _ Hg), Hs', Hj'.
  cbn [Z.eqb Pos.eqb].
  rewrite (generate_table_cells_run w _ _ _ Hp), Hs'', Hj''.
  cbn [Z.eqb Pos.eqb]. reflexivity.
Qed.




End Runs.







(** X4. Every run ends with a message: either the error of the exception
    that stopped it, and then no file was written, or the announcement of
    the results file, written just before and only once. *)
Theorem run_outcome (w : world) (pdf_path : str) :
  (exists t e,
     workflow w pdf_path [] = (inl e, t) /\
     process_pdf_and_classify_companies w pdf_path =
       t ++ [Print (lit "Error: " ++ e)] /\
     existsb is_write (process_pdf_and_classify_companies w pdf_path) = false)
  \/
  (exists t data,
     process_pdf_and_classify_companies w pdf_path =
       t ++ [Write results_path data; Print saved_line] /\
     existsb is_write t = false).
Proof.
  unfold process_pdf_and_classify_companies.
  destruct (workflow w pdf_path []) as [res t] eqn:Wf.
  destruct (@workflow_run w pdf_path res t Wf)
    as [(e & n & document_id & -> & Hw & _)
       |(document_id & chunks & cells & lines & r & r' & -> & _ & _ & _
         & _ & _ & ->)].
  - left. exists t, e. split; [reflexivity|]. split; [reflexivity|].
    rewrite existsb_app, Hw. reflexivity.
  - right. eexists. eexists. split.
    + rewrite !app_assoc. reflexivity.
    + rewrite existsb_is_write_prints. reflexivity.
Qed.



(** X6. A document without company names: when no chunk has a
    non-blank line (or there is no chunk at all), the cells are still
    requested, for no rows; the table has its heading and no line, and
    the file holds the empty list. *)
Theorem empty_document_run (w : world) (pdf_path document_id : str)
  (chunks : list chunk) (cells : list cell) :
  served w pdf_path document_id chunks cells ->
  Forall (fun ch => nonblank_lines (content ch) = 0) chunks ->
  open_w w results_path = inr tt ->
  process_pdf_and_classify_companies w pdf_path =
    preamble document_id [] cells ++ table_head
    ++ [Write results_path (lit "[]"); Print saved_line].
Proof.
  intros Hs Hb Ho.
  assert (E : rows_from_chunks chunks = []).
  { apply length_zero_iff_nil.
    rewrite rows_from_chunks_table, length_table.
    apply list_sum_zero. now apply Forall_map. }
  unfold process_pdf_and_classify_companies.
  rewrite (workflow_served Hs), report_run, E. cbv zeta.
  cbn [aggregate rows_loop render fst snd map]. rewrite Ho.
  rewrite <- !app_assoc. reflexivity.
Qed.

Lemma empty_document_run_witness :
  process_pdf_and_classify_companies
    (scenario_world (mk_response 201%Z [] (inr (lit "doc-1")))
       (mk_response 200%Z [] (inr [mk_chunk [newline; 32%N; newline]]))
       (mk_response 200%Z [] (inr [])))
    (lit "companies.pdf") =
    preamble (lit "doc-1") [] [] ++ table_head
    ++ [Write results_path (lit "[]"); Print saved_line].
Proof.
  apply (@empty_document_run _ (lit "companies.pdf") (lit "doc-1")
           [mk_chunk [newline; 32%N; newline]] []).
  - do 3 eexists. split; [exists [37; 80; 68; 70]%N; split; reflexivity|].
    repeat (split; [reflexivity|]). reflexivity.
  - repeat constructor.
  - reflexivity.
Defined.

(** X7. A file that cannot be opened: the exception of [open] is the
    only thing the run reports; no request is sent. *)
Theorem unreadable_pdf_sends_nothing (w : world) (pdf_path : str) (e : exn) :
  open_rb w pdf_path = inl e ->
  process_pdf_and_classify_companies w pdf_path =
    [Print (lit "Error: " ++ e)].
Proof.
  intros H. unfold process_pdf_and_classify_companies.
  rewrite workflow_eq. unfold upload_pdf, bind, call. rewrite H. reflexivity.
Qed.

Lemma unreadable_pdf_sends_nothing_witness :
  process_pdf_and_classify_companies
    (mk_world (fun p => p)
       (fun _ => inl (lit "[Errno 2] No such file or directory"))
       (fun _ _ _ _ => inl []) (fun _ => inl []) (fun _ _ _ => inl [])
       (fun _ => inr tt))
    (lit "missing.pdf") =
    [Print (lit "Error: " ++ lit "[Errno 2] No such file or directory")].
Proof.
  apply (@unreadable_pdf_sends_nothing
           (mk_world (fun p => p)
              (fun _ => inl (lit "[Errno 2] No such file or directory"))
              (fun _ _ _ _ => inl []) (fun _ => inl []) (fun _ _ _ => inl [])
              (fun _ => inr tt))
           (lit "missing.pdf")).
  reflexivity.
Defined.



Section RowOrder.

Lemma number_sourceData (i n : nat) (l : list str) :
  map sourceData (number i n l) = l.
Proof. revert n; induction l as [|s l IH]; intros n; cbn; [|rewrite IH]; reflexivity. Qed.

Lemma table_sourceData (i n : nat) (chunks : list chunk) :
  map sourceData (table i n chunks) =
  flat_map (fun ch => names (content ch)) chunks.
Proof.
  revert i n; induction chunks as [|ch chunks IH]; intros i n; cbn [table flat_map];
    [reflexivity|].
  now rewrite map_app, number_sourceData, IH.
Qed.

Lemma number_nth (i n : nat) (l : list str) (k : nat) (r : row) :
  nth_error (number i n l) k = Some r ->
  id r = row_id i (n + k) /\ hidden r = false /\ In (sourceData r) l.
Proof.
  revert n k; induction l as [|s l IH]; intros n k; cbn [number].
  - destruct k; discriminate.
  - destruct k as [|k]; cbn [nth_error].
    + intros [= <-]. cbn. rewrite Nat.add_0_r. auto.
    + intros H. apply IH in H as (H1 & H2 & H3).
      rewrite Nat.add_succ_r. cbn [In]. auto.
Qed.

Lemma table_nth (i n : nat) (chunks : list chunk) (k : nat) (r : row) :
  nth_error (table i n chunks) k = Some r ->
  exists j ch,
    nth_error chunks j = Some ch /\ id r = row_id (i + j) (n + k) /\
    hidden r = false /\ In (sourceData r) (names (content ch)).
Proof.
  revert i n k; induction chunks as [|ch chunks IH]; intros i n k; cbn [table].
  - destruct k; discriminate.
  - intros H. destruct (Nat.lt_ge_cases k (length (number i n (names (content ch)))))
      as [L|L].
    + rewrite nth_error_app1 in H by exact L.
      apply number_nth in H as (H1 & H2 & H3).
      exists 0, ch. rewrite Nat.add_0_r. auto.
    + rewrite nth_error_app2 in H by exact L.
      apply IH in H as (j & ch' & Hj & Hid & Hh & Hin).
      exists (S j), ch'. split; [exact Hj|]. split; [|auto].
      rewrite Hid. f_equal; lia.
Qed.

End RowOrder.

(** X9. The rows follow the document: their company names are the
    trimmed non-blank lines of the chunks, chunk after chunk and line
    after line; the row at position [k] has the identifier made of the
    index of its chunk and of [k], and is not hidden. *)
Theorem rows_in_document_order (chunks : list chunk) :
  map sourceData (rows_from_chunks chunks) =
    flat_map (fun ch => names (content ch)) chunks /\
  forall k r, nth_error (rows_from_chunks chunks) k = Some r ->
    exists j ch,
      nth_error chunks j = Some ch /\ id r = row_id j k /\
      hidden r = false /\ In (sourceData r) (names (content ch)).
Proof.
  rewrite rows_from_chunks_table. split; [apply table_sourceData|].
  intros k r H. apply table_nth in H. exact H.
Qed.

Lemma rows_in_document_order_witness :
  exists j ch,
    nth_error [mk_chunk scenario_content] j = Some ch /\
    id (mk_row (lit "row_0_1") (lit "Beta Inc") false []) = row_id j 1 /\
    hidden (mk_row (lit "row_0_1") (lit "Beta Inc") false []) = false /\
    In (sourceData (mk_row (lit "row_0_1") (lit "Beta Inc") false []))
      (names (content ch)).
Proof.
  apply (proj2 (rows_in_document_order [mk_chunk scenario_content]) 1).
  reflexivity.
Defined.

Section Padding.

Lemma names_pad_left (pre s : str) : blank pre = true -> names (pre ++ s) = names s.
Proof.
  induction pre as [|c pre IH]; cbn [app]; [reflexivity|].
  intros H. cbn [blank forallb] in H. apply andb_true_iff in H as [Hc Hp].
  rewrite names_cons_space by exact Hc. now apply IH.
Qed.

Lemma names_pad_right (s post : str) : blank post = true -> names (s ++ post) = names s.
Proof.
  revert s; induction post as [|c post IH]; intros s H.
  - now rewrite app_nil_r.
  - cbn [blank forallb] in H. apply andb_true_iff in H as [Hc Hp].
    change (c :: post) with ([c] ++ post). rewrite app_assoc, IH by exact Hp.
    now apply names_snoc_space.
Qed.

Lemma table_names (i n : nat) (chunks chunks' : list chunk) :
  Forall2 (fun ch ch' => names (content ch') = names (content ch)) chunks chunks' ->
  table i n chunks' = table i n chunks.
Proof.
  intros H. revert i n. induction H as [|ch ch' l l' E _ IH]; intros i n;
    cbn [table]; [reflexivity|].
  cbv zeta. now rewrite E, IH.
Qed.

End Padding.

(** X10. Whitespace around a chunk does not count: putting whitespace,
    blank lines included, before and after the text of the chunks leaves
    the rows, their names and their identifiers unchanged. *)
Theorem chunk_padding_irrelevant (chunks chunks' : list chunk) :
  Forall2 (fun ch ch' =>
             exists pre post,
               blank pre = true /\ blank post = true /\
               content ch' = pre ++ content ch ++ post) chunks chunks' ->
  rows_from_chunks chunks' = rows_from_chunks chunks.
Proof.
  intros H. rewrite !rows_from_chunks_table. apply table_names.
  induction H as [|ch ch' l l' (pre & post & Hp & Hq & E) _ IH];
    constructor; [|exact IH].
  rewrite E, names_pad_left, names_pad_right by assumption. reflexivity.
Qed.

Lemma chunk_padding_irrelevant_witness :
  rows_from_chunks
    [mk_chunk ([newline; 32%N] ++ scenario_content ++ [9%N; newline; newline])] =
  rows_from_chunks [mk_chunk scenario_content].
Proof.
  apply chunk_padding_irrelevant. constructor; [|constructor].
  exists [newline; 32%N], [9%N; newline; newline].
  repeat split; reflexivity.
Defined.


Section Layout.

Lemma length_ljust (width : nat) (s : str) :
  length (ljust width s) = Nat.max width (length s).
Proof. unfold ljust. rewrite length_app, repeat_length. lia. Qed.

End Layout.

(** X12. The lines of the table are padded, never cut: a line is the
    company name and the three answers, each left-aligned in its column
    of 30 or 10 characters and separated by " | ", a boolean answer being
    shown as 1 or 0; it is exactly as wide as the heading when the name
    has at most 30 characters and the answers at most 10, and wider
    otherwise. *)
Theorem table_line_layout (name line : str) (a b c : json) :
  result_line (result_of name a b c) = inr line ->
  line = table_line name a b c /\
  length line =
    Nat.max 30 (length name) + 3 + Nat.max 10 (length (plain a)) + 3
    + Nat.max 10 (length (plain b)) + 3 + Nat.max 10 (length (plain c)) /\
  length header_line = 69 /\
  length header_line <= length line.
Proof.
  intros H. destruct (result_line_printable _ _ _ _ H) as (Pa & Pb & Pc).
  rewrite result_line_table_line in H by assumption.
  injection H as <-. split; [reflexivity|].
  assert (L : length (table_line name a b c) =
    Nat.max 30 (length name) + 3 + Nat.max 10 (length (plain a)) + 3
    + Nat.max 10 (length (plain b)) + 3 + Nat.max 10 (length (plain c))).
  { unfold table_line. rewrite !length_app, !length_ljust.
    change (length (lit " | ")) with 3. lia. }
  split; [exact L|]. split; [reflexivity|].
  rewrite L. change (length header_line) with 69. lia.
Qed.

Lemma table_line_layout_witness :
  table_line (lit "Acme Corp") (JStr (lit "Y")) (JBool true) (JInt 7) =
    table_line (lit "Acme Corp") (JStr (lit "Y")) (JBool true) (JInt 7) /\
  length (table_line (lit "Acme Corp") (JStr (lit "Y")) (JBool true) (JInt 7)) =
    Nat.max 30 (length (lit "Acme Corp")) + 3
    + Nat.max 10 (length (plain (JStr (lit "Y")))) + 3
    + Nat.max 10 (length (plain (JBool true))) + 3
    + Nat.max 10 (length (plain (JInt 7))) /\
  length header_line = 69 /\
  length header_line <=
    length (table_line (lit "Acme Corp") (JStr (lit "Y")) (JBool true) (JInt 7)).
Proof.
  apply (@table_line_layout (lit "Acme Corp") _ (JStr (lit "Y")) (JBool true)
           (JInt 7)).
  reflexivity.
Defined.

(** X13. Assignment by key: after [d[k] = v] the key [k] holds [v] and
    every other key holds what it held; a key that was present keeps its
    place, a new key comes last. *)
Theorem dict_set_get (V : Type) (k : str) (v : V) (d : Dict.dict V) :
  Dict.get k (Dict.set k v d) = Some v /\
  (forall k', k' <> k -> Dict.get k' (Dict.set k v d) = Dict.get k' d) /\
  (In k (Dict.keys d) -> Dict.keys (Dict.set k v d) = Dict.keys d) /\
  (~ In k (Dict.keys d) -> Dict.keys (Dict.set k v d) = Dict.keys d ++ [k]).
Proof.
  induction d as [|[k0 v0] d (IH1 & IH2 & IH3 & IH4)]; cbn [Dict.set Dict.get].
  - rewrite eqb_refl. repeat split; try reflexivity.
    + intros k' N. apply not_eq_sym, eqb_neq in N. cbn [Dict.get]. now rewrite N.
    + intros [].
  - destruct (Str.eqb k0 k) eqn:E; cbn [Dict.get Dict.keys map fst].
    + rewrite E. apply eqb_eq in E. subst k0. repeat split; try reflexivity.
      * intros k' N. apply not_eq_sym, eqb_neq in N. now rewrite N.
      * intros N. exfalso. apply N. now left.
    + rewrite E. apply eqb_neq in E. repeat split.
      * exact IH1.
      * intros k' N. destruct (Str.eqb k0 k'); [reflexivity|now apply IH2].
      * intros [H|H]; [contradiction|]. f_equal. now apply IH3.
      * intros N. cbn [app]. f_equal. apply IH4. intros H. apply N. now right.
Qed.

Section FlatObjects.

Import Json.






End FlatObjects.



Lemma json_file_round_trip_witness :
  exists document_id chunks cells lines,
    let rows := rows_from_chunks chunks in
    let results := aggregate rows cells in
    process_pdf_and_classify_companies scenario_ok (lit "companies.pdf") =
      preamble document_id rows cells ++ table_head ++ map Print lines
      ++ [ Write results_path
             (Json.dumps (Some 2)
                (JList (map JDict
                   (aggregate (rows_from_chunks [mk_chunk scenario_content])
                      scenario_cells))));
           Print saved_line ] /\
    results_path = results_path /\
    Json.loads
      (Json.dumps (Some 2)
         (JList (map JDict
            (aggregate (rows_from_chunks [mk_chunk scenario_content])
               scenario_cells)))) = Some (JList (map JDict results)) /\
    Forall2 (fun result line => result_line result = inr line) results lines.
Proof.
  apply (@json_file_round_trip scenario_ok (lit "companies.pdf") results_path
           (Json.dumps (Some 2)
              (JList (map JDict
                 (aggregate (rows_from_chunks [mk_chunk scenario_content])
                    scenario_cells))))).
  - split.
    + intros url r chunks Hg Hj. injection Hg as <-. injection Hj as <-.
      repeat constructor.
    + intros url columns rows r cells Hp Hj. injection Hp as <-.
      injection Hj as <-. repeat constructor.
  - vm_compute. do 13 right. left. reflexivity.
Defined.

(** ** The text written *)

Section AsciiOutput.

Import Json.

Lemma ascii_only_app (a b : str) :
  ascii_only a -> ascii_only b -> ascii_only (a ++ b).
Proof. intros Ha Hb. apply Forall_app. now split. Qed.

Lemma ascii_only_join (sep : str) (parts : list str) :
  ascii_only sep -> Forall ascii_only parts -> ascii_only (join sep parts).
Proof.
  intros Hs Hp. induction Hp as [|p parts H _ IH]; [constructor|].
  destruct parts as [|q parts]; [exact H|].
  rewrite join_cons2. now repeat apply ascii_only_app.
Qed.

Lemma ascii_only_digits (d : Decimal.uint) :
  ascii_only (lit (DecimalString.NilEmpty.string_of_uint d)).
Proof.
  pose proof (uint_digits d) as H. unfold ascii_only.
  eapply Forall_impl; [|exact H]. intros c Hc. unfold is_digit in Hc.
  apply andb_true_iff in Hc as [_ Hc]. apply N.leb_le in Hc. lia.
Qed.

Lemma ascii_only_of_Z (z : Z) : ascii_only (of_Z z).
Proof.
  unfold of_Z. destruct z as [|p|p]; cbn [Z.to_int DecimalString.NilZero.string_of_int].
  - repeat constructor.
  - rewrite nilzero_to_uint. apply ascii_only_digits.
  - change (lit (String "-" ?s)) with (45%N :: lit s). constructor; [reflexivity|].
    rewrite nilzero_to_uint. apply ascii_only_digits.
Qed.

Lemma hexdigit_ascii (d : N) : (d < 16)%N -> (hexdigit d < 128)%N.
Proof. intros H. unfold hexdigit. destruct (d <? 10)%N; lia. Qed.

Lemma ascii_only_u_escape (n : N) : ascii_only (u_escape n).
Proof.
  unfold u_escape, hex4.
  repeat constructor; apply hexdigit_ascii, N.mod_lt; discriminate.
Qed.

Lemma ascii_only_escape_char (c : char) : ascii_only (escape_char c).
Proof.
  unfold escape_char. cbv zeta.
  repeat match goal with
         | |- context [if ?b then _ else _] => destruct b eqn:?
         end;
    try (repeat constructor; fail);
    try apply ascii_only_u_escape;
    try (apply ascii_only_app; apply ascii_only_u_escape).
  constructor; [|constructor].
  match goal with
  | H : (_ && (c <=? 126))%N = true |- _ =>
      apply andb_true_iff in H as [_ H]; apply N.leb_le in H; lia
  end.
Qed.

Lemma ascii_only_basestring (s : str) :
  ascii_only (py_encode_basestring_ascii s).
Proof.
  unfold py_encode_basestring_ascii. constructor; [reflexivity|].
  apply ascii_only_app; [|repeat constructor].
  induction s as [|c s IH]; [constructor|].
  cbn [flat_map]. apply ascii_only_app; [apply ascii_only_escape_char|exact IH].
Qed.

Lemma ascii_only_newline_indent (indent : option nat) (level : nat) :
  ascii_only (newline_indent indent level).
Proof.
  destruct indent as [k|]; [|constructor]. cbn [newline_indent].
  constructor; [reflexivity|]. induction (k * level); constructor;
    [reflexivity|assumption].
Qed.

Lemma ascii_only_item_separator (indent : option nat) :
  ascii_only (item_separator indent).
Proof. destruct indent; repeat constructor. Qed.

(** With [ensure_ascii], the text of any value is ASCII. *)
Lemma ascii_only_encode :
  forall (v : json) (indent : option nat) (level : nat),
    ascii_only (encode indent level v).
Proof.
  fix IH 1. intros [|[]|z|s|l|d] indent level; cbn [encode].
  - repeat constructor.
  - repeat constructor.
  - repeat constructor.
  - apply ascii_only_of_Z.
  - apply ascii_only_basestring.
  - destruct l as [|v l]; [repeat constructor|].
    repeat apply ascii_only_app;
      try apply ascii_only_newline_indent; try (repeat constructor; fail).
    apply ascii_only_join.
    + apply ascii_only_app;
        [apply ascii_only_item_separator|apply ascii_only_newline_indent].
    + generalize (v :: l). intros l'.
      induction l' as [|x l' IHl]; constructor; [apply IH|exact IHl].
  - destruct d as [|kv d]; [repeat constructor|].
    repeat apply ascii_only_app;
      try apply ascii_only_newline_indent; try (repeat constructor; fail).
    apply ascii_only_join.
    + apply ascii_only_app;
        [apply ascii_only_item_separator|apply ascii_only_newline_indent].
    + generalize (kv :: d). intros d'.
      induction d' as [|[k x] d' IHd]; constructor; [|exact IHd].
      cbn [fst snd]. repeat apply ascii_only_app;
        [apply ascii_only_basestring|repeat constructor|apply IH].
Qed.

End AsciiOutput.

(** X15. The file is plain ASCII: whatever characters the company names
    and the answers hold, the text a run writes contains ASCII characters
    only, so that writing it cannot fail on the encoding of the platform. *)
Theorem written_text_is_ascii (w : world) (pdf_path path data : str) :
  In (Write path data) (process_pdf_and_classify_companies w pdf_path) ->
  path = results_path /\ ascii_only data.
Proof.
  intros Hin.
  destruct (written_file _ _ _ _ Hin)
    as (document_id & chunks & cells & lines & r & r' & _ & _ & _ & _
        & _ & _ & -> & ->).
  split; [reflexivity|apply ascii_only_encode].
Qed.

Lemma written_text_is_ascii_witness :
  results_path = results_path /\
  ascii_only
    (Json.dumps (Some 2)
       (JList (map JDict
          (aggregate (rows_from_chunks [mk_chunk scenario_content])
             scenario_cells)))).
Proof.
  apply (@written_text_is_ascii scenario_ok (lit "companies.pdf")).
  vm_compute. do 13 right. left. reflexivity.
Defined.

(** X16. A row identifier tells the chunk and the position: two
    identifiers built by the Row Builder are equal only for the same
    chunk index and the same running count. *)
Theorem row_id_injective (i n j m : nat) :
  row_id i n = row_id j m -> i = j /\ n = m.
Proof.
  intros H.
  assert (E : n = m).
  { apply of_nat_inj. rewrite <- (id_suffix_row_id i n), H.
    apply id_suffix_row_id. }
  subst m. split; [|reflexivity].
  unfold row_id in H. apply app_inv_head in H.
  rewrite !app_assoc in H. apply app_inv_tail in H.
  apply app_inv_tail in H. now apply of_nat_inj.
Qed.

Lemma row_id_injective_witness : 3 = 3 /\ 12 = 12.
Proof. apply (@row_id_injective 3 12 3 12). reflexivity. Defined.

(** ** The names, again *)

Section Verbatim.

Lemma split_nl_no_newline (s l : str) :
  In l (split_nl s) -> Forall (fun c => c <> newline) l.
Proof.
  revert l; induction s as [|c s IH]; intros l; cbn [split_nl].
  - intros [<-|[]]. constructor.
  - destruct (c =? newline)%N eqn:E.
    + intros [<-|H]; [constructor|now apply IH].
    + apply N.eqb_neq in E.
      destruct (split_nl s) as [|l0 ls0] eqn:Es.
      * intros [<-|[]]. now repeat constructor.
      * intros [<-|H].
        -- constructor; [exact E|]. apply IH. now left.
        -- apply IH. now right.
Qed.

Lemma strip_inside (l : str) : exists a b, l = a ++ strip l ++ b.
Proof.
  unfold strip. destruct (lstrip_suffix l) as [a Ea].
  destruct (rstrip_prefix (lstrip l)) as [b Eb].
  exists a, b. now rewrite <- Eb.
Qed.

End Verbatim.

(** X17. The names are taken verbatim: the [sourceData] of every row is
    a contiguous piece of the text of one of the chunks, and it holds no
    newline character. *)
Theorem names_are_verbatim (chunks : list chunk) (r : row) :
  In r (rows_from_chunks chunks) ->
  exists ch a b,
    In ch chunks /\ content ch = a ++ sourceData r ++ b /\
    Forall (fun c => c <> newline) (sourceData r).
Proof.
  rewrite rows_from_chunks_table. intros H.
  apply in_table in H as (ch & s & Hch & Hs & ->).
  apply in_names in Hs as (line & Hl & _ & ->).
  destruct (split_nl_line _ _ Hl) as (a & b & Ec).
  destruct (strip_inside line) as (a' & b' & El).
  exists ch, (a ++ a'), (b' ++ b). split; [exact Hch|]. split.
  - rewrite Ec. rewrite El at 1. now rewrite <- !app_assoc.
  - pose proof (split_nl_no_newline _ _ Hl) as N. rewrite El in N.
    apply Forall_app in N as [_ N]. now apply Forall_app in N as [N _].
Qed.

Lemma names_are_verbatim_witness :
  exists ch a b,
    In ch [mk_chunk scenario_content] /\
    content ch = a ++ lit "Beta Inc" ++ b /\
    Forall (fun c => c <> newline) (lit "Beta Inc").
Proof.
  apply (@names_are_verbatim [mk_chunk scenario_content]
           (mk_row (lit "row_0_1") (lit "Beta Inc") false [])).
  vm_compute. right. left. reflexivity.
Defined.
